(** * oarkflow/errors: the structured application error, in Rocq

    A shallow embedding of the Go package [errors] (the [Error] record, its
    constructors, its string rendering, the chain readers [Code] and
    [Message], the HTTP status mapping, and the JSON and database/sql
    adapters), followed by the properties proved about it.

    Conventions of the embedding.
    - A Go [string] is a [string] of bytes.
    - A Go [int] or [uintptr] is a [Z]; the package does no arithmetic on them.
    - An interface value of type [error] is nil ([Nil]), a pointer to an
      [Error] ([ptr]), or any other error, which the package only ever
      observes through its [Error()] text ([foreign]).  A pointer held in
      an interface value points to an [Error]: it is not the nil pointer.
    - A result of type [*Error] that may be the nil pointer is an
      [option Error].
    - The two package variables [DefaultCode] and [GlobalError] are read from
      an explicit [Globals] record.
    - What the Go runtime answers to the stack queries of [newError] is an
      explicit [Runtime] record. *)

From Stdlib Require Import String Ascii List ZArith Bool Lia.
From Stdlib Require Import DecimalString.
Import ListNotations.

Local Open Scope string_scope.
Local Open Scope Z_scope.

(** ** Data model *)

Definition uintptr := Z.

Record Trace : Type := mkTrace {
  Index : Z;
  Function : string;
  File : string;
  Line : Z
}.

(** [StackTrace] is a slice: [None] is the nil slice. *)
Definition StackTrace := option (list Trace).

Inductive error : Type :=
  | Nil : error
  | foreign (text : string) : error
  | ptr (e : Error) : error
with Error : Type :=
  | mkError (Code Message Operation : string) (Err : error)
            (Additional : StackTrace) (Internal : bool)
            (fileLine : string) (pcs : option (list uintptr)) : Error.

Scheme error_mut := Induction for error Sort Prop
  with Error_mut := Induction for Error Sort Prop.

(** [errors.New] of the standard library. *)
Definition errors_New (message : string) : error := foreign message.

(** The zero value of [Error]. *)
Definition zeroError : Error :=
  mkError "" "" "" Nil None false "" None.

(** Application error codes. *)
Definition CONFLICT := "conflict".
Definition INTERNAL := "internal".
Definition INVALID := "invalid".
Definition NOTFOUND := "not_found".
Definition UNKNOWN := "unknown".
Definition MAXIMUMATTEMPTS := "maximum_attempts".
Definition EXPIRED := "expired".

(** The package variables. *)
Record Globals : Type := mkGlobals {
  DefaultCode : string;
  GlobalError : string
}.

Definition initGlobals : Globals :=
  mkGlobals INTERNAL "An error has occurred.".

(** ** The runtime, as [newError] queries it *)

Record Func : Type := mkFunc {
  Name : string;
  FileLine : uintptr -> string * Z
}.

Record Runtime : Type := mkRuntime {
  (** [runtime.Caller(skip)]: pc, file, line, ok. *)
  Caller : Z -> uintptr * string * Z * bool;
  (** [runtime.Callers(skip, pcs)]: the program counters found, innermost
      first. *)
  Callers : Z -> list uintptr;
  FuncForPC : uintptr -> Func
}.

(** [strconv.Itoa]. *)
Definition Itoa (n : Z) : string := NilZero.string_of_int (Z.to_int n).

(** [make([]uintptr, n)] filled by [runtime.Callers]: the slice keeps its
    length, entries past the ones found stay zero. *)
Fixpoint fill (n : nat) (found : list uintptr) : list uintptr :=
  match n with
  | O => []
  | S n' =>
      match found with
      | [] => 0 :: fill n' []
      | pc :: rest => pc :: fill n' rest
      end
  end.

(** The loop of [newError] over [pcs], appending one [Trace] per counter. *)
Fixpoint traces (rt : Runtime) (i : Z) (pcs : list uintptr) : list Trace :=
  match pcs with
  | [] => []
  | pc :: rest =>
      let p := FuncForPC rt pc in
      let '(f, l) := FileLine p pc in
      mkTrace i (Name p) f l :: traces rt (i + 1) rest
  end.

(** ** Package [strings] and [bytes] of the standard library *)

Definition byte_is (n : nat) (c : ascii) : bool := Nat.eqb (nat_of_ascii c) n.

(** [asciiSpace] of package [strings]: tab, newline, vertical tab, form feed,
    carriage return, space. *)
Definition asciiSpace (c : ascii) : bool :=
  byte_is 9 c || byte_is 10 c || byte_is 11 c || byte_is 12 c
  || byte_is 13 c || byte_is 32 c.

(** The two-byte UTF-8 encodings of white space: U+0085 and U+00A0. *)
Definition space2 (a b : ascii) : bool :=
  byte_is 194 a && (byte_is 133 b || byte_is 160 b).

(** The three-byte UTF-8 encodings of white space: U+1680, U+2000 to U+200A,
    U+2028, U+2029, U+202F, U+205F and U+3000. *)
Definition space3 (a b c : ascii) : bool :=
  (byte_is 225 a && byte_is 154 b && byte_is 128 c)
  || (byte_is 226 a && byte_is 128 b
      && ((Nat.leb 128 (nat_of_ascii c) && Nat.leb (nat_of_ascii c) 138)
          || byte_is 168 c || byte_is 169 c || byte_is 175 c))
  || (byte_is 226 a && byte_is 129 b && byte_is 159 c)
  || (byte_is 227 a && byte_is 128 b && byte_is 128 c).

(** [strings.TrimLeftFunc(s, unicode.IsSpace)]: drop runes from the front
    while they are white space. *)
Fixpoint trimLeft (s : list ascii) : list ascii :=
  match s with
  | [] => []
  | a :: s1 =>
      if asciiSpace a then trimLeft s1 else
      match s1 with
      | [] => s
      | b :: s2 =>
          if space2 a b then trimLeft s2 else
          match s2 with
          | [] => s
          | c :: s3 => if space3 a b c then trimLeft s3 else s
          end
      end
  end.

(** The same walk from the back, on the reversed bytes: [a] is the last
    byte, [b] the one before it. *)
Fixpoint trimLeftRev (s : list ascii) : list ascii :=
  match s with
  | [] => []
  | a :: s1 =>
      if asciiSpace a then trimLeftRev s1 else
      match s1 with
      | [] => s
      | b :: s2 =>
          if space2 b a then trimLeftRev s2 else
          match s2 with
          | [] => s
          | c :: s3 => if space3 c b a then trimLeftRev s3 else s
          end
      end
  end.

(** [strings.TrimRightFunc(s, unicode.IsSpace)]. *)
Definition trimRight (s : list ascii) : list ascii :=
  rev (trimLeftRev (rev s)).

(** [strings.TrimSpace]. *)
Definition TrimSpace (s : string) : string :=
  string_of_list_ascii (trimRight (trimLeft (list_ascii_of_string s))).

(** [strings.HasSuffix(s, suffix)] for a one-byte suffix. *)
Fixpoint hasSuffix1 (c : ascii) (s : list ascii) : bool :=
  match s with
  | [] => false
  | [a] => Ascii.eqb a c
  | _ :: s1 => hasSuffix1 c s1
  end.

(** [strings.TrimSuffix(s, ",")]. *)
Definition TrimSuffixComma (s : string) : string :=
  let l := list_ascii_of_string s in
  if hasSuffix1 ","%char l
  then string_of_list_ascii (removelast l)
  else s.

(** [bytes.Buffer]: the bytes written so far. *)
Definition Buffer := string.
Definition newBuffer : Buffer := "".
Definition WriteString (buf : Buffer) (s : string) : Buffer := buf ++ s.
Definition Buffer_String (buf : Buffer) : string := buf.

(** A string with no newline byte in it. *)
Definition newline : ascii := ascii_of_nat 10.
Definition single_line (s : string) : Prop :=
  ~ In newline (list_ascii_of_string s).

(** ** Package [encoding/json] of the standard library

    The text of a JSON document is the standard library's business; the
    embedding starts at the document that the text denotes.  A number that
    is written as an integer literal in the range of Go's [int] is [Int];
    any other number literal is [NonInt]. *)

Set Warnings "-register-all".

Inductive number : Type :=
  | Int (z : Z)
  | NonInt (literal : string).

Inductive json : Type :=
  | JNull
  | JBool (b : bool)
  | JNum (n : number)
  | JStr (s : string)
  | JArr (elements : list json)
  | JObj (members : list (string * json)).

(** A value of type [[]byte]: the nil slice, the text of a JSON document, or
    bytes that are no JSON text. *)
Inductive bytes : Type :=
  | BytesNil
  | BytesText (doc : json)
  | BytesOther (raw : string).

(** [foldName]: the case folding under which the decoder matches an object
    key with a field name when no field has exactly that name.  ASCII
    letters go to upper case; the long s (U+017F) and the Kelvin sign
    (U+212A) are the two runes outside ASCII that fold to an ASCII letter. *)
Fixpoint foldBytes (s : list ascii) : list ascii :=
  match s with
  | [] => []
  | a :: s1 =>
      let n := nat_of_ascii a in
      if Nat.leb 97 n && Nat.leb n 122
      then ascii_of_nat (n - 32) :: foldBytes s1
      else
        match s1 with
        | b :: s2 =>
            if byte_is 197 a && byte_is 191 b then "S"%char :: foldBytes s2
            else
              match s2 with
              | c :: s3 =>
                  if byte_is 226 a && byte_is 132 b && byte_is 170 c
                  then "K"%char :: foldBytes s3
                  else a :: foldBytes s1
              | [] => a :: foldBytes s1
              end
        | [] => a :: foldBytes s1
        end
  end.

Definition foldName (s : string) : string :=
  string_of_list_ascii (foldBytes (list_ascii_of_string s)).

(** Does the object key [key] select the field tagged [name]? *)
Definition selects (key name : string) : bool :=
  String.eqb key name || String.eqb (foldName key) (foldName name).

(** Decoding a JSON value into a field of type [string], [bool] or [int]
    that holds [old]: [null] leaves the field as it is, a value of another
    JSON type is an [UnmarshalTypeError] ([None]). *)
Definition decString (v : json) (old : string) : option string :=
  match v with
  | JStr s => Some s
  | JNull => Some old
  | _ => None
  end.

Definition decBool (v : json) (old : bool) : option bool :=
  match v with
  | JBool b => Some b
  | JNull => Some old
  | _ => None
  end.

Definition decInt (v : json) (old : Z) : option Z :=
  match v with
  | JNum (Int z) => Some z
  | JNull => Some old
  | _ => None
  end.

(** Decoding the members of an object into a struct, one after the other;
    [set] stores one member. *)
Fixpoint decMembers {A : Type} (set : A -> string -> json -> option A)
  (members : list (string * json)) (a : A) : option A :=
  match members with
  | [] => Some a
  | (key, v) :: rest =>
      match set a key v with
      | Some a' => decMembers set rest a'
      | None => None
      end
  end.

(** Decoding the elements of an array, each into a fresh element. *)
Fixpoint decElements {A : Type} (dec : json -> option A) (l : list json)
  : option (list A) :=
  match l with
  | [] => Some []
  | v :: rest =>
      match dec v, decElements dec rest with
      | Some a, Some r => Some (a :: r)
      | _, _ => None
      end
  end.

(** *** [Trace] and [StackTrace] on the wire *)

Definition zeroTrace : Trace := mkTrace 0 "" "" 0.

(** [json.Marshal] of a [Trace]; the tags of [Function], [File] and [Line]
    say [omitempty]. *)
Definition marshalTrace (t : Trace) : json :=
  JObj ([("index", JNum (Int (Index t)))]
        ++ (if String.eqb (Function t) "" then []
            else [("function", JStr (Function t))])
        ++ (if String.eqb (File t) "" then []
            else [("file", JStr (File t))])
        ++ (if Z.eqb (Line t) 0 then []
            else [("line", JNum (Int (Line t)))]))%list.

Definition marshalStackTrace (st : StackTrace) : json :=
  match st with
  | None => JNull
  | Some l => JArr (map marshalTrace l)
  end.

Definition setTrace (t : Trace) (key : string) (v : json) : option Trace :=
  if selects key "index" then
    option_map (fun z => mkTrace z (Function t) (File t) (Line t))
               (decInt v (Index t))
  else if selects key "function" then
    option_map (fun s => mkTrace (Index t) s (File t) (Line t))
               (decString v (Function t))
  else if selects key "file" then
    option_map (fun s => mkTrace (Index t) (Function t) s (Line t))
               (decString v (File t))
  else if selects key "line" then
    option_map (fun z => mkTrace (Index t) (Function t) (File t) z)
               (decInt v (Line t))
  else Some t.

Definition decTrace (v : json) (old : Trace) : option Trace :=
  match v with
  | JObj members => decMembers setTrace members old
  | JNull => Some old
  | _ => None
  end.

(** An array is decoded into a slice element by element, [null] makes the
    slice nil. *)
Definition decStackTrace (v : json) : option StackTrace :=
  match v with
  | JArr l => option_map Some (decElements (fun x => decTrace x zeroTrace) l)
  | JNull => Some None
  | _ => None
  end.

(** *** [wrappingError], the wire form of an [Error] *)

Module wrappingError.

Record t : Type := mk {
  Code : string;
  Message : string;
  Operation : string;
  Err : string;
  FileLine : string;
  Additional : StackTrace;
  Internal : bool
}.

Definition zero : t := mk "" "" "" "" "" None false.

(** [json.Marshal] of a [wrappingError]. *)
Definition marshal (w : t) : json :=
  JObj [("code", JStr (Code w));
        ("message", JStr (Message w));
        ("operation", JStr (Operation w));
        ("error", JStr (Err w));
        ("file_line", JStr (FileLine w));
        ("additional", marshalStackTrace (Additional w));
        ("internal", JBool (Internal w))].

Definition set (w : t) (key : string) (v : json) : option t :=
  if selects key "code" then
    option_map (fun s => mk s (Message w) (Operation w) (Err w) (FileLine w)
                            (Additional w) (Internal w))
               (decString v (Code w))
  else if selects key "message" then
    option_map (fun s => mk (Code w) s (Operation w) (Err w) (FileLine w)
                            (Additional w) (Internal w))
               (decString v (Message w))
  else if selects key "operation" then
    option_map (fun s => mk (Code w) (Message w) s (Err w) (FileLine w)
                            (Additional w) (Internal w))
               (decString v (Operation w))
  else if selects key "error" then
    option_map (fun s => mk (Code w) (Message w) (Operation w) s (FileLine w)
                            (Additional w) (Internal w))
               (decString v (Err w))
  else if selects key "file_line" then
    option_map (fun s => mk (Code w) (Message w) (Operation w) (Err w) s
                            (Additional w) (Internal w))
               (decString v (FileLine w))
  else if selects key "additional" then
    option_map (fun a => mk (Code w) (Message w) (Operation w) (Err w)
                            (FileLine w) a (Internal w))
               (decStackTrace v)
  else if selects key "internal" then
    option_map (fun b => mk (Code w) (Message w) (Operation w) (Err w)
                            (FileLine w) (Additional w) b)
               (decBool v (Internal w))
  else Some w.

(** Decoding a document into a [wrappingError] that holds [old]. *)
Definition decode (doc : json) (old : t) : option t :=
  match doc with
  | JObj members => decMembers set members old
  | JNull => Some old
  | _ => None
  end.

End wrappingError.

(** The errors of package [json], seen through their text. *)
Definition SyntaxError : error := foreign "invalid character".
Definition UnmarshalTypeError : error :=
  foreign "json: cannot unmarshal value into Go struct field".

(** [json.Marshal(w)] for a [wrappingError] [w]: the bytes and a nil error. *)
Definition json_Marshal (w : wrappingError.t) : bytes * error :=
  (BytesText (wrappingError.marshal w), Nil).

(** [json.Unmarshal(data, &w)] for a [wrappingError] variable holding [w]:
    the variable afterwards, and the error returned. *)
Definition json_Unmarshal (data : bytes) (w : wrappingError.t)
  : wrappingError.t * error :=
  match data with
  | BytesText doc =>
      match wrappingError.decode doc w with
      | Some w' => (w', Nil)
      | None => (w, UnmarshalTypeError)
      end
  | _ => (w, SyntaxError)
  end.

(** ** A value of type [any] handed to [Scan]: what a database/sql driver
    produces. *)
Inductive any : Type :=
  | any_nil
  | any_bytes (b : bytes)
  | any_string (s : string)
  | any_int64 (z : Z)
  | any_float64 (bits : Z)
  | any_bool (b : bool)
  | any_time (unixNano : Z).

(** Status codes of package [net/http]. *)
Definition StatusBadRequest := 400.
Definition StatusPaymentRequired := 402.
Definition StatusNotFound := 404.
Definition StatusConflict := 409.
Definition StatusTooManyRequests := 429.
Definition StatusInternalServerError := 500.

(** ** Rendering of traces, and the frames of package [runtime] *)

Definition nl : string := String newline "".
Definition tab : string := String (ascii_of_nat 9) "".

(** [Trace.String]: the format is "#%d %s:%d %s". *)
Definition Trace_String (t : Trace) : string :=
  "#" ++ Itoa (Index t) ++ " " ++ File t ++ ":" ++ Itoa (Line t) ++ " "
  ++ Function t.

(** The elements a [range] over a slice visits. *)
Definition elements {A : Type} (s : option (list A)) : list A :=
  match s with
  | None => []
  | Some l => l
  end.

(** [append(s, x)] on a slice. *)
Definition append1 {A : Type} (s : option (list A)) (x : A)
  : option (list A) :=
  Some (elements s ++ [x])%list.

(** [StackTrace.String]: every trace, each followed by a newline. *)
Fixpoint writeTraces (buf : Buffer) (l : list Trace) : Buffer :=
  match l with
  | [] => buf
  | trace :: rest =>
      writeTraces (WriteString (WriteString buf (Trace_String trace)) nl) rest
  end.

Definition StackTrace_String (t : StackTrace) : string :=
  Buffer_String (writeTraces newBuffer (elements t)).

(** [StackTrace.StringArray]: the result starts as the nil slice. *)
Fixpoint appendTraces (s : option (list string)) (l : list Trace)
  : option (list string) :=
  match l with
  | [] => s
  | trace :: rest => appendTraces (append1 s (Trace_String trace)) rest
  end.

Definition StackTrace_StringArray (t : StackTrace) : option (list string) :=
  appendTraces None (elements t).

(** [runtime.Frame], with the fields the package reads. *)
Module Frame.

Record t : Type := mk {
  PC : uintptr;
  Function : string;
  File : string;
  Line : Z
}.

Definition zero : t := mk 0 "" "" 0.

End Frame.

(** [runtime.Frames]: the frames not yet returned.  [Next] returns the next
    frame (the zero frame when none is left), whether a further call will
    return a frame, and the iterator afterwards. *)
Definition Frames := list Frame.t.

Definition Next (ci : Frames) : Frame.t * bool * Frames :=
  match ci with
  | [] => (Frame.zero, false, [])
  | frame :: rest =>
      (frame, match rest with [] => false | _ :: _ => true end, rest)
  end.

(** [strings.Join]. *)
Definition Join (elems : list string) (sep : string) : string :=
  String.concat sep elems.

(** The loop shared by [StackTrace] and [StackTraceSlice]:
    [for ok { trace = append(trace, prefix+frame.File+":"+line);
    frame, ok = rFrames.Next() }].  [fuel] bounds the number of rounds. *)
Fixpoint framesLoop (fuel : nat) (prefix line : string)
  (trace : list string) (frame : Frame.t) (ok : bool) (rFrames : Frames)
  : list string :=
  match fuel with
  | O => trace
  | S fuel' =>
      if ok then
        let trace :=
          (trace
           ++ [(prefix ++ Frame.File frame ++ ":" ++ line)%string])%list in
        let '(frame', ok', rFrames') := Next rFrames in
        framesLoop fuel' prefix line trace frame' ok' rFrames'
      else trace
  end.

(** ** Fields of [Error] *)

Module Error.

Definition t : Type := Error.

Definition Code (e : Error) : string :=
  let '(mkError c _ _ _ _ _ _ _) := e in c.
Definition Message (e : Error) : string :=
  let '(mkError _ m _ _ _ _ _ _) := e in m.
Definition Operation (e : Error) : string :=
  let '(mkError _ _ o _ _ _ _ _) := e in o.
Definition Err (e : Error) : error :=
  let '(mkError _ _ _ c _ _ _ _) := e in c.
Definition Additional (e : Error) : StackTrace :=
  let '(mkError _ _ _ _ a _ _ _) := e in a.
Definition Internal (e : Error) : bool :=
  let '(mkError _ _ _ _ _ i _ _) := e in i.
Definition fileLine (e : Error) : string :=
  let '(mkError _ _ _ _ _ _ f _) := e in f.
Definition pcs (e : Error) : option (list uintptr) :=
  let '(mkError _ _ _ _ _ _ _ p) := e in p.

(** Assignment to the field [Internal]. *)
Definition set_Internal (b : bool) (e : Error) : Error :=
  mkError (Code e) (Message e) (Operation e) (Err e) (Additional e) b
          (fileLine e) (pcs e).

(** [Error] returns the string representation of the error. *)
Fixpoint Error (e : t) : string :=
  let buf := newBuffer in
  let buf :=
    if negb (String.eqb (Code e) "")
    then WriteString buf ("<" ++ Code e ++ "> ") else buf in
  let buf :=
    if negb (String.eqb (fileLine e) "")
    then WriteString buf (fileLine e ++ " - ") else buf in
  let buf :=
    if negb (String.eqb (Operation e) "")
    then WriteString buf (Operation e ++ ": ") else buf in
  let buf :=
    match Err e with
    | Nil => buf
    | foreign text => WriteString buf (text ++ ", ")
    | ptr cause => WriteString buf (Error cause ++ ", ")
    end in
  let buf :=
    if negb (String.eqb (Message e) "")
    then WriteString buf (Message e) else buf in
  TrimSuffixComma (TrimSpace (Buffer_String buf)).

Definition FileLine (e : t) : string := fileLine e.

Definition Unwrap (e : t) : error := Err e.

Definition ProgramCounters (e : t) : option (list uintptr) := pcs e.

Definition HTTPStatusCode (e : t) : Z :=
  let status := StatusInternalServerError in
  if String.eqb (Code e) CONFLICT then StatusConflict
  else if String.eqb (Code e) INVALID then StatusBadRequest
  else if String.eqb (Code e) NOTFOUND then StatusNotFound
  else if String.eqb (Code e) EXPIRED then StatusPaymentRequired
  else if String.eqb (Code e) MAXIMUMATTEMPTS then StatusTooManyRequests
  else status.

(** [err.Error()] on an interface value [err]; on the nil interface the
    call panics ([None]). *)
Definition dyn_Error (err : error) : option string :=
  match err with
  | Nil => None
  | foreign text => Some text
  | ptr e => Some (Error e)
  end.

(** [MarshalJSON] wraps the error as a string if there is one. *)
Definition MarshalJSON (e : t) : bytes * error :=
  let err := wrappingError.mk (Code e) (Message e) (Operation e) "" ""
                              (Additional e) (Internal e) in
  let err :=
    match dyn_Error (Err e) with
    | Some text =>
        wrappingError.mk (wrappingError.Code err) (wrappingError.Message err)
                         (wrappingError.Operation err) text (fileLine e)
                         (wrappingError.Additional err)
                         (wrappingError.Internal err)
    | None => err
    end in
  json_Marshal err.

(** [UnmarshalJSON] on the receiver [e]: the receiver afterwards and the
    error returned. *)
Definition UnmarshalJSON (data : bytes) (e : t) : t * error :=
  let '(err, mErr) := json_Unmarshal data wrappingError.zero in
  match mErr with
  | Nil =>
      let cause :=
        if negb (String.eqb (wrappingError.Err err) "")
        then errors_New (wrappingError.Err err)
        else Err e in
      (mkError (wrappingError.Code err) (wrappingError.Message err)
               (wrappingError.Operation err) cause
               (wrappingError.Additional err) (wrappingError.Internal err)
               (wrappingError.FileLine err) (pcs e),
       Nil)
  | _ => (e, mErr)
  end.

(** [json.Marshal(e)] for an [e] of type [*Error]: the encoder calls the
    [MarshalJSON] method of [e] and passes its bytes on. *)
Definition json_Marshal_ptr (e : t) : bytes * error := MarshalJSON e.

(** [json.Unmarshal(buf, e)] for an [e] of type [*Error]: the decoder checks
    that [buf] holds a JSON text and hands it to the [UnmarshalJSON] method
    of [e]. *)
Definition json_Unmarshal_ptr (buf : bytes) (e : t) : t * error :=
  match buf with
  | BytesText _ => UnmarshalJSON buf e
  | _ => (e, SyntaxError)
  end.

(** [Scan] implements the [sql.Scanner] interface. *)
Definition Scan (value : any) (e : t) : t * error :=
  match value with
  | any_nil => (e, Nil)
  | any_bytes BytesNil =>
      (e, foreign "scan not supported for *errors.Error")
  | any_bytes buf => json_Unmarshal_ptr buf e
  | _ => (e, foreign "scan not supported for *errors.Error")
  end.

(** [Value] implements the [driver.Valuer] interface. *)
Definition Value (e : t) : bytes * error := json_Marshal_ptr e.

(** [ErrorWithStackTrace]: the verbose block of the error, then that of
    its cause. *)
Fixpoint ErrorWithStackTrace (e : t) : string :=
  let buf := newBuffer in
  let buf := WriteString buf "Type: " in
  let buf := WriteString buf (Code e) in
  let buf := WriteString buf ", Message: " in
  let buf := WriteString buf (Message e) in
  let buf := WriteString buf ", Operation: " in
  let buf := WriteString buf (Operation e) in
  let buf := WriteString buf nl in
  let buf := WriteString buf (StackTrace_String (Additional e)) in
  let buf :=
    match Err e with
    | ptr er =>
        let buf := WriteString buf nl in
        let buf := WriteString buf (ErrorWithStackTrace er) in
        WriteString buf nl
    | foreign text =>
        let buf := WriteString buf nl in
        WriteString buf text
    | Nil => buf
    end in
  Buffer_String buf.

(** [RuntimeFrames]; [CallersFrames] is [runtime.CallersFrames]. *)
Definition RuntimeFrames
  (CallersFrames : option (list uintptr) -> Frames) (e : t) : Frames :=
  CallersFrames (pcs e).

(** [StackTraceSlice], with at most [fuel] rounds of its loop. *)
Definition StackTraceSlice_fuel (fuel : nat)
  (CallersFrames : option (list uintptr) -> Frames) (e : t) : list string :=
  let trace := [] in
  let rFrames := RuntimeFrames CallersFrames e in
  let '(frame, ok, rFrames) := Next rFrames in
  let line := Itoa (Frame.Line frame) in
  let trace :=
    (trace ++ [(Frame.Function frame ++ "(): " ++ Message e)%string])%list in
  framesLoop fuel "" line trace frame ok rFrames.

Definition StackTraceSlice
  (CallersFrames : option (list uintptr) -> Frames) (e : t) : list string :=
  StackTraceSlice_fuel (S (length (RuntimeFrames CallersFrames e)))
                       CallersFrames e.

(** [StackTrace], with at most [fuel] rounds of its loop. *)
Definition StackTrace_fuel (fuel : nat)
  (CallersFrames : option (list uintptr) -> Frames) (e : t) : string :=
  let trace := [] in
  let rFrames := RuntimeFrames CallersFrames e in
  let '(frame, ok, rFrames) := Next rFrames in
  let line := Itoa (Frame.Line frame) in
  let trace :=
    (trace ++ [(Frame.Function frame ++ "(): " ++ Message e)%string])%list in
  Join (framesLoop fuel tab line trace frame ok rFrames) nl.

Definition StackTrace
  (CallersFrames : option (list uintptr) -> Frames) (e : t) : string :=
  StackTrace_fuel (S (length (RuntimeFrames CallersFrames e)))
                  CallersFrames e.

End Error.

(** ** Constructors *)

Definition newError (rt : Runtime) (err : error) (message code op : string)
  : option Error :=
  let '(_, file, line, _) := Caller rt 2 in
  let pcs := fill 2 (Callers rt 2) in
  let stackTrace := Some (traces rt 0 pcs) in
  let e := mkError code message op err stackTrace false
                   (file ++ ":" ++ Itoa line) (Some pcs) in
  if String.eqb code INTERNAL
  then Some (Error.set_Internal true e)
  else Some e.

Definition NewInternal (rt : Runtime) (err : error) (message op : string) :=
  newError rt err message INTERNAL op.

Definition NewConflict (rt : Runtime) (err : error) (message op : string) :=
  newError rt err message CONFLICT op.

Definition NewInvalid (rt : Runtime) (err : error) (message op : string) :=
  newError rt err message INVALID op.

Definition NewNotFound (rt : Runtime) (err : error) (message op : string) :=
  newError rt err message NOTFOUND op.

Definition NewUnknown (rt : Runtime) (err : error) (message op : string) :=
  newError rt err message UNKNOWN op.

Definition NewMaximumAttempts (rt : Runtime) (err : error)
  (message op : string) :=
  newError rt err message MAXIMUMATTEMPTS op.

Definition NewExpired (rt : Runtime) (err : error) (message op : string) :=
  newError rt err message EXPIRED op.

(** [NewE] returns an [Error] with the [DefaultCode]. *)
Definition NewE (g : Globals) (rt : Runtime) (err : error)
  (message op : string) :=
  newError rt err message (DefaultCode g) op.

(** [ErrorF]; [Sprintf] is [fmt.Sprintf]. *)
Definition ErrorF (Sprintf : string -> list any -> string)
  (g : Globals) (rt : Runtime) (err : error) (op format : string)
  (args : list any) :=
  NewE g rt err (Sprintf format args) op.

(** [Wrap]: if [err] is nil, [Wrap] returns nil. *)
Definition Wrap (g : Globals) (rt : Runtime) (err : error)
  (message op : string) : option Error :=
  match err with
  | Nil => None
  | _ => NewE g rt err message op
  end.

(** ** Chain readers (utils.go) *)

(** [Code] returns the code of the root error, if available; otherwise
    [INTERNAL].  The match on [ptr e] is the type assertion
    of [err] to a pointer to [Error]. *)
Fixpoint Code (err : error) : string :=
  match err with
  | Nil => ""
  | ptr e =>
      if negb (String.eqb (Error.Code e) "") then Error.Code e
      else
        match Error.Err e with
        | Nil => INTERNAL
        | _ => Code (Error.Err e)
        end
  | foreign _ => INTERNAL
  end.

(** [Message] returns the human-readable message of the error, if
    available; otherwise the generic message [GlobalError]. *)
Fixpoint Message (g : Globals) (err : error) : string :=
  match err with
  | Nil => ""
  | ptr e =>
      if negb (String.eqb (Error.Message e) "") then Error.Message e
      else
        match Error.Err e with
        | Nil => GlobalError g
        | _ => Message g (Error.Err e)
        end
  | foreign _ => GlobalError g
  end.

(** ** [New] and [ToError] *)

(** [New] is a wrapper for the standard library's [errors.New]. *)
Definition New (message : string) : error := errors_New message.

(** What [ToError] is handed as an [any]: nil, a pointer to an [Error], an
    [Error] by value, another error (seen through its text), a string, or a
    value of another type. *)
Inductive input : Type :=
  | in_nil
  | in_ptr (e : Error)
  | in_value (e : Error)
  | in_error (text : string)
  | in_string (s : string)
  | in_other.

(** [fmt.Errorf(format)] with no operands: an error whose text is
    [Sprintf format []]. *)
Definition fmt_Errorf (Sprintf : string -> list any -> string)
  (format : string) : error :=
  foreign (Sprintf format []).

(** [ToError] returns an application error from its input; for a type it
    does not know, nil. *)
Definition ToError (Sprintf : string -> list any -> string) (err : input)
  : option Error :=
  match err with
  | in_ptr v => Some v
  | in_value v => Some v
  | in_error text =>
      Some (mkError "" "" "" (fmt_Errorf Sprintf text) None false "" None)
  | in_string v =>
      Some (mkError "" "" "" (fmt_Errorf Sprintf v) None false "" None)
  | _ => None
  end.

(** ** Vocabulary of the properties *)

(** Every [Error] of the chain starting at [err] has an empty message. *)
Fixpoint messages_empty (err : error) : Prop :=
  match err with
  | Nil => True
  | foreign _ => True
  | ptr e => Error.Message e = "" /\ messages_empty (Error.Err e)
  end.

(** A runtime to run the constructors on: two frames above [newError]. *)
Definition demoRuntime : Runtime :=
  mkRuntime (fun _ => (4096, "/app/user.go", 42, true))
            (fun _ => [4096; 8192])
            (fun pc => mkFunc (if Z.eqb pc 4096 then "errors.NewE"
                               else "main.get")
                              (fun pc' => ("/app/user.go", pc' / 100))).

(** The rendering of an [Error] as the display contract words it: the
    parts, in order, then the trimming. *)
Definition code_part (e : Error) : string :=
  if String.eqb (Error.Code e) "" then "" else "<" ++ Error.Code e ++ "> ".

Definition origin_part (e : Error) : string :=
  if String.eqb (Error.fileLine e) "" then "" else Error.fileLine e ++ " - ".

Definition operation_part (e : Error) : string :=
  if String.eqb (Error.Operation e) "" then ""
  else Error.Operation e ++ ": ".

Definition cause_part (e : Error) : string :=
  match Error.dyn_Error (Error.Err e) with
  | Some text => text ++ ", "
  | None => ""
  end.

Definition rendering (e : Error) : string :=
  TrimSuffixComma
    (TrimSpace (code_part e ++ origin_part e ++ operation_part e
                ++ cause_part e ++ Error.Message e)).

(** The [wrappingError] that [MarshalJSON] builds from an [Error]. *)
Definition wire (e : Error) : wrappingError.t :=
  match Error.dyn_Error (Error.Err e) with
  | Some text =>
      wrappingError.mk (Error.Code e) (Error.Message e) (Error.Operation e)
                       text (Error.fileLine e) (Error.Additional e)
                       (Error.Internal e)
  | None =>
      wrappingError.mk (Error.Code e) (Error.Message e) (Error.Operation e)
                       "" "" (Error.Additional e) (Error.Internal e)
  end.

(** Encoding an [Error] and decoding the bytes into a fresh instance. *)
Definition roundtrip (e : Error) : Error * error :=
  Error.UnmarshalJSON (fst (Error.MarshalJSON e)) zeroError.

(** The "error" field of a document is empty or absent: every member that
    the decoder stores into the field tagged "error" holds the empty
    string or [null].  A document with no such member, and a document that
    is not an object, qualify. *)
Definition error_empty_or_absent (doc : json) : Prop :=
  match doc with
  | JObj members =>
      forall key v, In (key, v) members -> selects key "error" = true ->
                    v = JStr "" \/ v = JNull
  | _ => True
  end.

(** The [Error]s met when following the causes from [err], outermost
    first; the walk stops at nil and at a foreign error. *)
Fixpoint chain (err : error) : list Error :=
  match err with
  | ptr e => e :: chain (Error.Err e)
  | _ => []
  end.

(** The first non-empty code, or message, of a list of [Error]s. *)
Definition first_code (l : list Error) : option string :=
  option_map Error.Code
             (find (fun e => negb (String.eqb (Error.Code e) "")) l).

Definition first_message (l : list Error) : option string :=
  option_map Error.Message
             (find (fun e => negb (String.eqb (Error.Message e) "")) l).

(** A byte that the trimming of [Error] cannot remove once something that
    stays precedes or is it: an ASCII byte that is no white space. *)
Definition anchor (a : ascii) : Prop :=
  asciiSpace a = false /\ (nat_of_ascii a < 128)%nat.

(** The block that [ErrorWithStackTrace] writes for one [Error] of a chain:
    its code, message and operation on a line, then its frames. *)
Definition block (e : Error) : string :=
  "Type: " ++ Error.Code e ++ ", Message: " ++ Error.Message e
  ++ ", Operation: " ++ Error.Operation e ++ nl
  ++ StackTrace_String (Error.Additional e).

(** [x] occurs in [s]. *)
Definition occurs (x s : string) : Prop :=
  exists pre post : string, s = pre ++ x ++ post.

(** * Properties *)

(** ** Constructors *)

Lemma newError_Some (rt : Runtime) (err : error) (message code op : string) :
  exists e, newError rt err message code op = Some e
            /\ Error.Code e = code
            /\ Error.Message e = message
            /\ Error.Operation e = op
            /\ Error.Err e = err
            /\ Error.Internal e = String.eqb code INTERNAL.
Proof.
  unfold newError.
  destruct (Caller rt 2) as [[[pc file] line] ok].
  destruct (String.eqb code INTERNAL) eqn:Hc;
    eexists; (split; [reflexivity | cbn; auto]).
Qed.

Ltac by_newError rt err message code op :=
  destruct (newError_Some rt err message code op)
    as (e & He & Hcode & _);
  exists e; split; [exact He | exact Hcode].

(** C1. Each of the seven named constructors returns a non-nil [Error] whose
    code is the one its name says, whatever the cause (nil included), the
    message and the operation; [NewE] and [ErrorF] return a non-nil [Error]
    whose code is the current value of [DefaultCode]. *)
Theorem C1_constructor_codes :
  forall (Sprintf : string -> list any -> string) (g : Globals)
         (rt : Runtime) (err : error) (message op : string),
    (exists e, NewInternal rt err message op = Some e
               /\ Error.Code e = "internal")
    /\ (exists e, NewConflict rt err message op = Some e
                  /\ Error.Code e = "conflict")
    /\ (exists e, NewInvalid rt err message op = Some e
                  /\ Error.Code e = "invalid")
    /\ (exists e, NewNotFound rt err message op = Some e
                  /\ Error.Code e = "not_found")
    /\ (exists e, NewUnknown rt err message op = Some e
                  /\ Error.Code e = "unknown")
    /\ (exists e, NewMaximumAttempts rt err message op = Some e
                  /\ Error.Code e = "maximum_attempts")
    /\ (exists e, NewExpired rt err message op = Some e
                  /\ Error.Code e = "expired")
    /\ (exists e, NewE g rt err message op = Some e
                  /\ Error.Code e = DefaultCode g)
    /\ (forall (format : string) (args : list any),
          exists e, ErrorF Sprintf g rt err op format args = Some e
                    /\ Error.Code e = DefaultCode g).
Proof.
  intros Sprintf g rt err message op.
  repeat split.
  - by_newError rt err message INTERNAL op.
  - by_newError rt err message CONFLICT op.
  - by_newError rt err message INVALID op.
  - by_newError rt err message NOTFOUND op.
  - by_newError rt err message UNKNOWN op.
  - by_newError rt err message MAXIMUMATTEMPTS op.
  - by_newError rt err message EXPIRED op.
  - by_newError rt err message (DefaultCode g) op.
  - intros format args.
    by_newError rt err (Sprintf format args) (DefaultCode g) op.
Qed.

(** C2. [Wrap] of a nil error is nil; [Wrap] of a non-nil error [err] is a
    non-nil [Error] whose cause is [err]. *)
Theorem C2_Wrap :
  forall (g : Globals) (rt : Runtime) (message op : string),
    Wrap g rt Nil message op = None
    /\ (forall err : error,
          err <> Nil ->
          exists e, Wrap g rt err message op = Some e
                    /\ Error.Err e = err).
Proof.
  intros g rt message op. split; [reflexivity |].
  intros err Herr.
  destruct (newError_Some rt err message (DefaultCode g) op)
    as (e & He & _ & _ & _ & Hcause & _).
  exists e. split; [| exact Hcause].
  destruct err; [contradiction | exact He | exact He].
Qed.

Lemma C2_Wrap_witness :
  exists e, Wrap initGlobals demoRuntime (foreign "disk full") "save" "Store.Put"
            = Some e
            /\ Error.Err e = foreign "disk full".
Proof.
  apply (proj2 (C2_Wrap initGlobals demoRuntime "save" "Store.Put")).
  discriminate.
Defined.

(** The example of the documentation: a not-found error with no cause. *)
Example NewNotFound_example :
  exists e, NewNotFound demoRuntime Nil "user missing" "UserService.Get"
            = Some e
            /\ Error.Error e
               = "<not_found> /app/user.go:42 - UserService.Get: user missing"
            /\ Error.HTTPStatusCode e = 404.
Proof. eexists. repeat split. Qed.

(** ** Chain readers *)





(** ** HTTP status *)

(** C5. [HTTPStatusCode] is 409 for CONFLICT, 400 for INVALID, 404 for
    NOTFOUND, 402 for EXPIRED, 429 for MAXIMUMATTEMPTS and 500 for every
    other code, INTERNAL, UNKNOWN and the empty code included; it reads
    nothing of the error but its code. *)
Theorem C5_HTTPStatusCode :
  forall e : Error,
    (Error.Code e = "conflict" -> Error.HTTPStatusCode e = 409)
    /\ (Error.Code e = "invalid" -> Error.HTTPStatusCode e = 400)
    /\ (Error.Code e = "not_found" -> Error.HTTPStatusCode e = 404)
    /\ (Error.Code e = "expired" -> Error.HTTPStatusCode e = 402)
    /\ (Error.Code e = "maximum_attempts" -> Error.HTTPStatusCode e = 429)
    /\ (Error.Code e <> "conflict" -> Error.Code e <> "invalid" ->
        Error.Code e <> "not_found" -> Error.Code e <> "expired" ->
        Error.Code e <> "maximum_attempts" ->
        Error.HTTPStatusCode e = 500)
    /\ (forall e' : Error, Error.Code e' = Error.Code e ->
                           Error.HTTPStatusCode e' = Error.HTTPStatusCode e).
Proof.
  intro e. unfold Error.HTTPStatusCode.
  repeat split; try (intro H; rewrite H; reflexivity).
  - intros H1 H2 H3 H4 H5.
    repeat match goal with
           | |- context [String.eqb ?a ?b] =>
               destruct (String.eqb_spec a b); [contradiction |]
           end.
    reflexivity.
  - intros e' H. rewrite H. reflexivity.
Qed.

Lemma C5_HTTPStatusCode_witness :
  Error.HTTPStatusCode (mkError "not_found" "user missing" "UserService.Get"
                                Nil None false "" None) = 404
  /\ Error.HTTPStatusCode (mkError "internal" "" "" Nil None true "" None)
     = 500
  /\ Error.HTTPStatusCode (mkError "unknown" "" "" Nil None false "" None)
     = 500
  /\ Error.HTTPStatusCode zeroError = 500.
Proof.
  split; [apply (C5_HTTPStatusCode _); reflexivity |].
  repeat split; apply (C5_HTTPStatusCode _); discriminate.
Defined.

(** ** Rendering *)

Lemma append_nil_r (s : string) : s ++ "" = s.
Proof. induction s as [| a s IH]; cbn; [reflexivity | now rewrite IH]. Qed.

Lemma append_assoc (s1 s2 s3 : string) : (s1 ++ s2) ++ s3 = s1 ++ s2 ++ s3.
Proof. induction s1 as [| a s1 IH]; cbn; [reflexivity | now rewrite IH]. Qed.

(** The writes to the buffer, put end to end. *)
Lemma Error_unfold (e : Error) : Error.Error e = rendering e.
Proof.
  destruct e as [c m o cause a i f p].
  unfold rendering, code_part, origin_part, operation_part, cause_part.
  cbn [Error.Error Error.Code Error.Message Error.Operation Error.Err
       Error.fileLine Error.dyn_Error].
  unfold newBuffer, WriteString, Buffer_String.
  f_equal. f_equal.
  destruct (String.eqb c "") eqn:Hc, (String.eqb f "") eqn:Hf,
           (String.eqb o "") eqn:Ho, (String.eqb m "") eqn:Hm;
    cbn [negb];
    try (apply String.eqb_eq in Hm; subst m);
    destruct cause as [| text | e'];
    cbn [Error.dyn_Error String.append];
    rewrite ?append_assoc, ?append_nil_r; cbn [String.append];
    reflexivity.
Qed.


(** *** What the trimming keeps *)

Lemma list_ascii_of_string_app (s1 s2 : string) :
  list_ascii_of_string (s1 ++ s2)
  = (list_ascii_of_string s1 ++ list_ascii_of_string s2)%list.
Proof. induction s1 as [| a s1 IH]; cbn; [reflexivity | now rewrite IH]. Qed.

Lemma trimLeft_incl_bounded (n : nat) :
  forall l : list ascii, (length l <= n)%nat -> incl (trimLeft l) l.
Proof.
  induction n as [| n IH]; intros l Hlen.
  - destruct l; [apply incl_refl | cbn in Hlen; lia].
  - destruct l as [| a l1]; [apply incl_refl |].
    cbn [trimLeft]. cbn in Hlen.
    destruct (asciiSpace a); [apply incl_tl, IH; lia |].
    destruct l1 as [| b l2]; [apply incl_refl |]. cbn in Hlen.
    destruct (space2 a b); [do 2 apply incl_tl; apply IH; lia |].
    destruct l2 as [| c l3]; [apply incl_refl |]. cbn in Hlen.
    destruct (space3 a b c); [do 3 apply incl_tl; apply IH; lia | apply incl_refl].
Qed.

Lemma trimLeft_incl (l : list ascii) : incl (trimLeft l) l.
Proof. exact (trimLeft_incl_bounded (length l) l (Nat.le_refl _)). Qed.

Lemma trimLeftRev_incl_bounded (n : nat) :
  forall l : list ascii, (length l <= n)%nat -> incl (trimLeftRev l) l.
Proof.
  induction n as [| n IH]; intros l Hlen.
  - destruct l; [apply incl_refl | cbn in Hlen; lia].
  - destruct l as [| a l1]; [apply incl_refl |].
    cbn [trimLeftRev]. cbn in Hlen.
    destruct (asciiSpace a); [apply incl_tl, IH; lia |].
    destruct l1 as [| b l2]; [apply incl_refl |]. cbn in Hlen.
    destruct (space2 b a); [do 2 apply incl_tl; apply IH; lia |].
    destruct l2 as [| c l3]; [apply incl_refl |]. cbn in Hlen.
    destruct (space3 c b a); [do 3 apply incl_tl; apply IH; lia | apply incl_refl].
Qed.

Lemma trimRight_incl (l : list ascii) : incl (trimRight l) l.
Proof.
  intros x Hx. unfold trimRight in Hx.
  apply in_rev in Hx.
  apply (trimLeftRev_incl_bounded _ _ (Nat.le_refl _)) in Hx.
  now apply in_rev.
Qed.

Lemma TrimSpace_incl (s : string) :
  incl (list_ascii_of_string (TrimSpace s)) (list_ascii_of_string s).
Proof.
  unfold TrimSpace. rewrite list_ascii_of_string_of_list_ascii.
  intros x Hx. apply trimLeft_incl. now apply trimRight_incl.
Qed.

Lemma removelast_incl {A : Type} (l : list A) : incl (removelast l) l.
Proof.
  induction l as [| a [| b l] IH]; cbn.
  - apply incl_refl.
  - apply incl_nil_l.
  - intros x [Hx | Hx]; [now left | right; now apply IH].
Qed.

Lemma TrimSuffixComma_incl (s : string) :
  incl (list_ascii_of_string (TrimSuffixComma s)) (list_ascii_of_string s).
Proof.
  unfold TrimSuffixComma.
  destruct (hasSuffix1 ","%char (list_ascii_of_string s)).
  - rewrite list_ascii_of_string_of_list_ascii. apply removelast_incl.
  - apply incl_refl.
Qed.

Lemma single_line_trimmed (s : string) :
  single_line s -> single_line (TrimSuffixComma (TrimSpace s)).
Proof.
  unfold single_line. intros H Hin. apply H.
  now apply TrimSpace_incl, TrimSuffixComma_incl.
Qed.

Lemma single_line_append (s1 s2 : string) :
  single_line s1 -> single_line s2 -> single_line (s1 ++ s2).
Proof.
  unfold single_line. intros H1 H2.
  rewrite list_ascii_of_string_app, in_app_iff. tauto.
Qed.

(** *** The opening bracket survives the trimming *)

Lemma trimLeft_bracket (l : list ascii) :
  trimLeft ("<"%char :: l) = "<"%char :: l.
Proof. destruct l as [| b [| c l]]; reflexivity. Qed.

Lemma trimLeftRev_bracket_bounded (n : nat) :
  forall r : list ascii,
    (length r <= n)%nat ->
    exists r', trimLeftRev (r ++ ["<"%char]) = (r' ++ ["<"%char])%list.
Proof.
  induction n as [| n IH]; intros r Hlen.
  - destruct r; [exists []; reflexivity | cbn in Hlen; lia].
  - destruct r as [| a r1]; [exists []; reflexivity |].
    cbn in Hlen. cbn [app trimLeftRev].
    destruct (asciiSpace a); [apply IH; lia |].
    destruct r1 as [| b r2]; cbn [app].
    + exists [a]. reflexivity.
    + cbn in Hlen.
      destruct (space2 b a); [apply IH; lia |].
      destruct r2 as [| c r3]; cbn [app].
      * exists [a; b]. reflexivity.
      * cbn in Hlen.
        destruct (space3 c b a); [apply IH; lia |].
        exists (a :: b :: c :: r3). reflexivity.
Qed.

Lemma trimRight_bracket (l : list ascii) :
  exists l', trimRight ("<"%char :: l) = "<"%char :: l'.
Proof.
  unfold trimRight. cbn [rev].
  destruct (trimLeftRev_bracket_bounded _ (rev l) (Nat.le_refl _))
    as [r' Hr'].
  rewrite Hr', rev_app_distr. cbn. now exists (rev r').
Qed.

Lemma TrimSpace_bracket (s : string) :
  exists s', TrimSpace (String "<" s) = String "<" s'.
Proof.
  unfold TrimSpace. cbn [list_ascii_of_string].
  rewrite trimLeft_bracket.
  destruct (trimRight_bracket (list_ascii_of_string s)) as [l' Hl'].
  rewrite Hl'. cbn. now eexists.
Qed.

Lemma TrimSuffixComma_bracket (s : string) :
  exists s', TrimSuffixComma (String "<" s) = String "<" s'.
Proof.
  unfold TrimSuffixComma. cbn [list_ascii_of_string].
  destruct (hasSuffix1 "," ("<"%char :: list_ascii_of_string s)) eqn:H;
    [| now eexists].
  destruct (list_ascii_of_string s) as [| a l].
  - discriminate H.
  - cbn. now eexists.
Qed.

Lemma Error_bracket (e : Error) :
  Error.Code e <> "" -> exists s', Error.Error e = String "<" s'.
Proof.
  intro Hc. rewrite Error_unfold. unfold rendering, code_part.
  destruct (String.eqb_spec (Error.Code e) ""); [contradiction |].
  cbn [String.append].
  match goal with
  | |- context [TrimSpace (String "<" ?s)] =>
      destruct (TrimSpace_bracket s) as [s1 Hs1]; rewrite Hs1
  end.
  apply TrimSuffixComma_bracket.
Qed.

Lemma single_line_rendering (e : Error) :
  single_line (Error.Code e) ->
  single_line (Error.fileLine e) ->
  single_line (Error.Operation e) ->
  single_line (Error.Message e) ->
  (forall text, Error.dyn_Error (Error.Err e) = Some text ->
                single_line text) ->
  single_line (rendering e).
Proof.
  intros Hc Hf Ho Hm Hcause.
  assert (Hl : forall s, s = "" \/ s = "> " \/ s = " - " \/ s = ": "
                         \/ s = ", " \/ s = "<" -> single_line s).
  { intros s H. unfold single_line.
    destruct H as [-> | [-> | [-> | [-> | [-> | ->]]]]]; cbn;
      intuition discriminate. }
  apply single_line_trimmed.
  unfold code_part, origin_part, operation_part, cause_part.
  repeat apply single_line_append; trivial.
  - destruct (String.eqb (Error.Code e) ""); [apply Hl; auto |].
    repeat apply single_line_append; trivial; apply Hl; auto 10.
  - destruct (String.eqb (Error.fileLine e) ""); [apply Hl; auto |].
    repeat apply single_line_append; trivial; apply Hl; auto 10.
  - destruct (String.eqb (Error.Operation e) ""); [apply Hl; auto |].
    repeat apply single_line_append; trivial; apply Hl; auto 10.
  - destruct (Error.dyn_Error (Error.Err e)) as [text |];
      [| apply Hl; auto].
    apply single_line_append; [now apply Hcause | apply Hl; auto 10].
Qed.

(** C9, as the code has it. [Error] returns a non-empty string (one that
    starts with the opening bracket of the code) whenever the code is not
    empty, and a string without newline whenever the code, the origin, the
    operation, the text of the cause and the message have none. *)
Theorem C9_Error_line :
  forall e : Error,
    (Error.Code e <> "" -> Error.Error e <> "")
    /\ (single_line (Error.Code e) ->
        single_line (Error.fileLine e) ->
        single_line (Error.Operation e) ->
        single_line (Error.Message e) ->
        (forall text, Error.dyn_Error (Error.Err e) = Some text ->
                      single_line text) ->
        single_line (Error.Error e)).
Proof.
  intro e. split.
  - intro Hc. destruct (Error_bracket e Hc) as [s' Hs']. rewrite Hs'.
    discriminate.
  - intros. rewrite Error_unfold. now apply single_line_rendering.
Qed.

Lemma C9_Error_line_witness :
  Error.Error (mkError "invalid" "bad id" "User.Get" (foreign "parse error")
                       None false "user.go:7" None) <> ""
  /\ single_line
       (Error.Error (mkError "invalid" "bad id" "User.Get"
                             (foreign "parse error") None false "user.go:7"
                             None)).
Proof.
  split.
  - apply (C9_Error_line _). discriminate.
  - apply (C9_Error_line _); unfold single_line; cbn;
      try (intuition discriminate).
    intros text H. inversion H; subst. cbn. intuition discriminate.
Defined.

(** C9 as stated fails: the zero [Error] renders as the empty string, and a
    newline in the text of the cause comes out in the rendering. *)
Lemma C9_counterexample :
  Error.Error (mkError "" "" "" Nil None false "" None) = ""
  /\ Error.Error (mkError "internal" "save failed" "Store.Put"
                          (foreign (String "d" (String newline "f")))
                          None true "" None)
     = "<internal> Store.Put: d" ++ String newline "f, save failed"
  /\ ~ single_line
         (Error.Error (mkError "internal" "save failed" "Store.Put"
                               (foreign (String "d" (String newline "f")))
                               None true "" None)).
Proof.
  split; [reflexivity |]. split; [reflexivity |].
  unfold single_line. intro H. apply H. vm_compute. tauto.
Qed.

(** ** The wire form *)

(** Decide which field a literal key selects. *)
Ltac eval_selects :=
  repeat match goal with
         | |- context [selects ?k ?n] =>
             let b := eval vm_compute in (selects k n) in
             change (selects k n) with b
         end.

Lemma decTrace_marshalTrace (t : Trace) :
  decTrace (marshalTrace t) zeroTrace = Some t.
Proof.
  destruct t as [i fn fl ln]. unfold decTrace, marshalTrace.
  cbn [Index Function File Line].
  destruct (String.eqb_spec fn ""), (String.eqb_spec fl ""),
           (Z.eqb_spec ln 0); subst;
    cbn [app decMembers]; unfold setTrace; eval_selects;
    reflexivity.
Qed.

Lemma decElements_marshalTrace (l : list Trace) :
  decElements (fun x => decTrace x zeroTrace) (map marshalTrace l) = Some l.
Proof.
  induction l as [| t l IH]; [reflexivity |].
  cbn [map decElements]. now rewrite decTrace_marshalTrace, IH.
Qed.

Lemma decStackTrace_marshalStackTrace (st : StackTrace) :
  decStackTrace (marshalStackTrace st) = Some st.
Proof.
  destruct st as [l |]; [| reflexivity].
  cbn [marshalStackTrace decStackTrace].
  now rewrite decElements_marshalTrace.
Qed.

Lemma decode_marshal (w : wrappingError.t) :
  wrappingError.decode (wrappingError.marshal w) wrappingError.zero = Some w.
Proof.
  destruct w as [c m o er fl ad i].
  unfold wrappingError.decode, wrappingError.marshal.
  cbn [wrappingError.Code wrappingError.Message wrappingError.Operation
       wrappingError.Err wrappingError.FileLine wrappingError.Additional
       wrappingError.Internal].
  cbn [decMembers]. unfold wrappingError.set. eval_selects.
  cbn [decString decBool option_map wrappingError.zero
       wrappingError.Code wrappingError.Message wrappingError.Operation
       wrappingError.Err wrappingError.FileLine wrappingError.Additional
       wrappingError.Internal].
  rewrite decStackTrace_marshalStackTrace.
  reflexivity.
Qed.

Lemma MarshalJSON_wire (e : Error) :
  Error.MarshalJSON e = (BytesText (wrappingError.marshal (wire e)), Nil).
Proof.
  unfold Error.MarshalJSON, wire, json_Marshal.
  destruct (Error.dyn_Error (Error.Err e)); reflexivity.
Qed.

Lemma roundtrip_wire (e : Error) :
  roundtrip e
  = (mkError (wrappingError.Code (wire e)) (wrappingError.Message (wire e))
             (wrappingError.Operation (wire e))
             (if negb (String.eqb (wrappingError.Err (wire e)) "")
              then errors_New (wrappingError.Err (wire e)) else Nil)
             (wrappingError.Additional (wire e))
             (wrappingError.Internal (wire e))
             (wrappingError.FileLine (wire e)) None,
     Nil).
Proof.
  unfold roundtrip. rewrite MarshalJSON_wire. cbn [fst].
  unfold Error.UnmarshalJSON, json_Unmarshal.
  rewrite decode_marshal. reflexivity.
Qed.




(** ** The database/sql adapter *)

(** C8. [Scan] of nil returns no error and leaves the receiver as it is;
    [Scan] of a value that is neither nil nor a byte slice returns an
    error; [Value] returns bytes and no error, and [Scan] of those bytes
    into a fresh instance gives what the JSON round trip gives. *)
Theorem C8_Scan_Value :
  forall e : Error,
    Error.Scan any_nil e = (e, Nil)
    /\ (forall v : any,
          v <> any_nil -> (forall b, v <> any_bytes b) ->
          snd (Error.Scan v e) <> Nil)
    /\ snd (Error.Value e) = Nil
    /\ Error.Scan (any_bytes (fst (Error.Value e))) zeroError
       = Error.UnmarshalJSON (fst (Error.MarshalJSON e)) zeroError.
Proof.
  intro e. split; [reflexivity |]. split; [| split].
  - intros v Hnil Hbytes.
    destruct v; cbn; try discriminate; [contradiction |].
    now destruct (Hbytes b).
  - unfold Error.Value, Error.json_Marshal_ptr.
    now rewrite MarshalJSON_wire.
  - unfold Error.Value, Error.json_Marshal_ptr.
    rewrite MarshalJSON_wire. reflexivity.
Qed.

Lemma C8_Scan_Value_witness :
  snd (Error.Scan (any_string "not bytes") zeroError) <> Nil.
Proof.
  apply (proj1 (proj2 (C8_Scan_Value zeroError))); discriminate.
Defined.

(** ** Decoding into a used instance *)

Lemma set_keeps_empty_Err (w w' : wrappingError.t) (key : string) (v : json) :
  wrappingError.set w key v = Some w' ->
  (selects key "error" = true -> v = JStr "" \/ v = JNull) ->
  wrappingError.Err w = "" ->
  wrappingError.Err w' = "".
Proof.
  unfold wrappingError.set. intros Hset Hv Hw.
  destruct (selects key "code");
    [destruct (decString v (wrappingError.Code w)); inversion Hset;
     exact Hw |].
  destruct (selects key "message");
    [destruct (decString v (wrappingError.Message w)); inversion Hset;
     exact Hw |].
  destruct (selects key "operation");
    [destruct (decString v (wrappingError.Operation w)); inversion Hset;
     exact Hw |].
  destruct (selects key "error").
  { destruct (Hv eq_refl) as [-> | ->]; inversion Hset;
      [reflexivity | exact Hw]. }
  destruct (selects key "file_line");
    [destruct (decString v (wrappingError.FileLine w)); inversion Hset;
     exact Hw |].
  destruct (selects key "additional");
    [destruct (decStackTrace v); inversion Hset; exact Hw |].
  destruct (selects key "internal");
    [destruct (decBool v (wrappingError.Internal w)); inversion Hset;
     exact Hw |].
  inversion Hset; subst. exact Hw.
Qed.

Lemma decMembers_keeps_empty_Err (members : list (string * json)) :
  forall w w' : wrappingError.t,
    decMembers wrappingError.set members w = Some w' ->
    (forall key v, In (key, v) members -> selects key "error" = true ->
                   v = JStr "" \/ v = JNull) ->
    wrappingError.Err w = "" ->
    wrappingError.Err w' = "".
Proof.
  induction members as [| [key v] rest IH]; intros w w' Hdec Hmem Hw.
  - inversion Hdec; subst. exact Hw.
  - cbn [decMembers] in Hdec.
    destruct (wrappingError.set w key v) as [w1 |] eqn:Hset;
      [| discriminate Hdec].
    apply (IH w1 w' Hdec).
    + intros k x Hin. apply Hmem. now right.
    + apply (set_keeps_empty_Err w w1 key v Hset); [| exact Hw].
      apply Hmem. now left.
Qed.

Lemma decode_keeps_empty_Err (doc : json) (w : wrappingError.t) :
  error_empty_or_absent doc ->
  wrappingError.decode doc wrappingError.zero = Some w ->
  wrappingError.Err w = "".
Proof.
  intros Hdoc Hdec. destruct doc; try discriminate Hdec.
  - inversion Hdec. reflexivity.
  - exact (decMembers_keeps_empty_Err members _ _ Hdec Hdoc eq_refl).
Qed.

(** C10. Whatever the receiver holds, a successful [UnmarshalJSON] of a
    JSON text whose "error" field is empty or absent takes code, message,
    operation, frames, internal flag and origin from the decoded wire form
    and leaves the cause and the program counters of the receiver as they
    were. *)
Theorem C10_UnmarshalJSON_keeps_cause :
  forall (doc : json) (e e' : Error),
    error_empty_or_absent doc ->
    Error.UnmarshalJSON (BytesText doc) e = (e', Nil) ->
    Error.Err e' = Error.Err e
    /\ Error.pcs e' = Error.pcs e
    /\ exists w : wrappingError.t,
         json_Unmarshal (BytesText doc) wrappingError.zero = (w, Nil)
         /\ Error.Code e' = wrappingError.Code w
         /\ Error.Message e' = wrappingError.Message w
         /\ Error.Operation e' = wrappingError.Operation w
         /\ Error.Additional e' = wrappingError.Additional w
         /\ Error.Internal e' = wrappingError.Internal w
         /\ Error.fileLine e' = wrappingError.FileLine w.
Proof.
  intros doc e e' Hdoc.
  unfold Error.UnmarshalJSON, json_Unmarshal.
  destruct (wrappingError.decode doc wrappingError.zero) as [w |] eqn:Hdec;
    [| intro H; discriminate H].
  rewrite (decode_keeps_empty_Err doc w Hdoc Hdec). cbn [String.eqb negb].
  intro H. injection H as <-. cbn.
  split; [reflexivity |]. split; [reflexivity |].
  exists w. repeat split.
Qed.

Lemma C10_UnmarshalJSON_keeps_cause_witness :
  Error.Err
    (fst (Error.UnmarshalJSON
            (BytesText (JObj [("code", JStr "expired"); ("ERROR", JStr "");
                              ("message", JStr "late")]))
            (mkError "invalid" "bad id" "User.Get" (foreign "parse error")
                     None false "user.go:7" (Some [4096; 8192]))))
  = foreign "parse error".
Proof.
  refine (proj1 (C10_UnmarshalJSON_keeps_cause
                   (JObj [("code", JStr "expired"); ("ERROR", JStr "");
                          ("message", JStr "late")])
                   (mkError "invalid" "bad id" "User.Get"
                            (foreign "parse error") None false "user.go:7"
                            (Some [4096; 8192]))
                   _ _ _)).
  - cbn. intros key v [H | [H | [H | []]]] Hsel; inversion H; subst;
      try (left; reflexivity); vm_compute in Hsel; discriminate Hsel.
  - reflexivity.
Defined.

(** * Further properties of the package *)

(** ** What the constructors build *)

(** X1. The flag [Internal] of a constructed error says whether its code is
    INTERNAL: it is set by [NewInternal], clear for the six other named
    constructors, and for [NewE] it follows the current [DefaultCode]. *)
Theorem X1_Internal_flag :
  forall (g : Globals) (rt : Runtime) (err : error) (message op : string),
    (exists e, NewInternal rt err message op = Some e
               /\ Error.Internal e = true)
    /\ (exists e, NewConflict rt err message op = Some e
                  /\ Error.Internal e = false)
    /\ (exists e, NewInvalid rt err message op = Some e
                  /\ Error.Internal e = false)
    /\ (exists e, NewNotFound rt err message op = Some e
                  /\ Error.Internal e = false)
    /\ (exists e, NewUnknown rt err message op = Some e
                  /\ Error.Internal e = false)
    /\ (exists e, NewMaximumAttempts rt err message op = Some e
                  /\ Error.Internal e = false)
    /\ (exists e, NewExpired rt err message op = Some e
                  /\ Error.Internal e = false)
    /\ (exists e, NewE g rt err message op = Some e
                  /\ Error.Internal e = String.eqb (DefaultCode g) "internal").
Proof.
  intros g rt err message op.
  repeat split;
    match goal with
    | |- exists e, newError ?rt ?err ?m ?c ?op = _ /\ _ =>
        idtac
    | |- exists e, ?f = _ /\ _ => unfold NewInternal, NewConflict, NewInvalid,
                                  NewNotFound, NewUnknown,
                                  NewMaximumAttempts, NewExpired, NewE
    end;
    match goal with
    | |- exists e, newError ?rt ?err ?m ?c ?op = _ /\ _ =>
        destruct (newError_Some rt err m c op)
          as (e & He & _ & _ & _ & _ & Hint);
        exists e; split; [exact He | exact Hint]
    end.
Qed.


(** ** Reading a chain *)

Lemma Code_ptr (e : Error) :
  Code (ptr e)
  = if String.eqb (Error.Code e) "" then
      match Error.Err e with
      | Nil => INTERNAL
      | _ => Code (Error.Err e)
      end
    else Error.Code e.
Proof.
  destruct e as [c m o cause a i f p]. cbn. now destruct (String.eqb c "").
Qed.

Lemma Message_ptr (g : Globals) (e : Error) :
  Message g (ptr e)
  = if String.eqb (Error.Message e) "" then
      match Error.Err e with
      | Nil => GlobalError g
      | _ => Message g (Error.Err e)
      end
    else Error.Message e.
Proof.
  destruct e as [c m o cause a i f p]. cbn. now destruct (String.eqb m "").
Qed.

Lemma Code_nonempty (err : error) : err <> Nil -> Code err <> "".
Proof.
  induction err as [| text | e IH | c m o cause IH a i f p]
    using error_mut with (P0 := fun e => Code (ptr e) <> "").
  - contradiction.
  - discriminate.
  - intros _. exact IH.
  - rewrite Code_ptr. cbn [Error.Code Error.Err].
    destruct (String.eqb_spec c ""); [| assumption].
    destruct cause; [discriminate | discriminate |].
    apply IH. discriminate.
Qed.

Lemma Message_nonempty (g : Globals) (err : error) :
  GlobalError g <> "" -> err <> Nil -> Message g err <> "".
Proof.
  intro Hg.
  induction err as [| text | e IH | c m o cause IH a i f p]
    using error_mut with (P0 := fun e => Message g (ptr e) <> "").
  - contradiction.
  - intros _. exact Hg.
  - intros _. exact IH.
  - rewrite Message_ptr. cbn [Error.Message Error.Err].
    destruct (String.eqb_spec m ""); [| assumption].
    destruct cause; [exact Hg | exact Hg |].
    apply IH. discriminate.
Qed.





(** X5. What [Wrap] does to the readers: the wrapper carries [DefaultCode],
    so [Code] of a wrapped error is [DefaultCode] and the code of the cause
    is hidden, unless [DefaultCode] is empty, in which case [Code] is that
    of the cause; [Message] is the message given to [Wrap], or that of the
    cause when the message given is empty. *)
Theorem X5_Wrap_readers :
  forall (g : Globals) (rt : Runtime) (err : error) (message op : string)
         (e : Error),
    Wrap g rt err message op = Some e ->
    (DefaultCode g <> "" -> Code (ptr e) = DefaultCode g)
    /\ (DefaultCode g = "" -> Code (ptr e) = Code err)
    /\ (message <> "" -> Message g (ptr e) = message)
    /\ (message = "" -> Message g (ptr e) = Message g err).
Proof.
  intros g rt err message op e HW.
  assert (Hnil : err <> Nil) by (intros ->; discriminate HW).
  destruct (newError_Some rt err message (DefaultCode g) op)
    as (e0 & He0 & Hc & Hm & _ & Hcause & _).
  assert (e = e0) as ->.
  { destruct err; [contradiction | |]; cbn in HW; unfold NewE in HW;
      congruence. }
  rewrite Code_ptr, Message_ptr, Hc, Hm, Hcause.
  repeat split.
  - intro H. now destruct (String.eqb_spec (DefaultCode g) "").
  - intros ->. cbn. now destruct err.
  - intro H. now destruct (String.eqb_spec message "").
  - intros ->. cbn. now destruct err.
Qed.

Lemma X5_Wrap_readers_witness :
  exists e,
    Wrap initGlobals demoRuntime
         (ptr (mkError "not_found" "no such user" "" Nil None false "" None))
         "" "Store.Get" = Some e
    /\ Code (ptr e) = "internal"
    /\ Message initGlobals (ptr e) = "no such user".
Proof.
  eexists. split; [reflexivity |].
  match goal with
  | |- Code (ptr ?e) = _ /\ _ =>
      destruct (X5_Wrap_readers
                  initGlobals demoRuntime
                  (ptr (mkError "not_found" "no such user" "" Nil None false
                                "" None))
                  "" "Store.Get" e eq_refl)
        as (Hc & _ & _ & Hm)
  end.
  split; [apply Hc; discriminate | apply Hm; reflexivity].
Defined.

(** X6. The HTTP status of a constructed error: 409 from [NewConflict], 400
    from [NewInvalid], 404 from [NewNotFound], 402 from [NewExpired], 429
    from [NewMaximumAttempts], and 500 from [NewInternal] and
    [NewUnknown], whatever the cause. *)
Theorem X6_constructor_status :
  forall (rt : Runtime) (err : error) (message op : string),
    (exists e, NewConflict rt err message op = Some e
               /\ Error.HTTPStatusCode e = 409)
    /\ (exists e, NewInvalid rt err message op = Some e
                  /\ Error.HTTPStatusCode e = 400)
    /\ (exists e, NewNotFound rt err message op = Some e
                  /\ Error.HTTPStatusCode e = 404)
    /\ (exists e, NewExpired rt err message op = Some e
                  /\ Error.HTTPStatusCode e = 402)
    /\ (exists e, NewMaximumAttempts rt err message op = Some e
                  /\ Error.HTTPStatusCode e = 429)
    /\ (exists e, NewInternal rt err message op = Some e
                  /\ Error.HTTPStatusCode e = 500)
    /\ (exists e, NewUnknown rt err message op = Some e
                  /\ Error.HTTPStatusCode e = 500).
Proof.
  intros rt err message op.
  repeat split;
    unfold NewInternal, NewConflict, NewInvalid, NewNotFound, NewUnknown,
           NewMaximumAttempts, NewExpired;
    match goal with
    | |- exists e, newError ?rt ?err ?m ?c ?op = _ /\ _ =>
        destruct (newError_Some rt err m c op) as (e & He & Hc & _);
        exists e; split; [exact He |];
        unfold Error.HTTPStatusCode; rewrite Hc; reflexivity
    end.
Qed.

(** ** What the trimming of [Error] cannot remove *)

Lemma byte_is_anchor (a : ascii) (k : nat) :
  anchor a -> (128 <= k)%nat -> byte_is k a = false.
Proof.
  intros [_ Ha] Hk. unfold byte_is. apply Nat.eqb_neq. lia.
Qed.

Ltac anchor_bytes a H :=
  rewrite ?(byte_is_anchor a 194 H), ?(byte_is_anchor a 133 H),
          ?(byte_is_anchor a 160 H), ?(byte_is_anchor a 225 H),
          ?(byte_is_anchor a 226 H), ?(byte_is_anchor a 227 H),
          ?(byte_is_anchor a 154 H), ?(byte_is_anchor a 128 H),
          ?(byte_is_anchor a 129 H), ?(byte_is_anchor a 168 H),
          ?(byte_is_anchor a 169 H), ?(byte_is_anchor a 175 H),
          ?(byte_is_anchor a 159 H) by lia.

Lemma space2_anchor (a b : ascii) :
  anchor a -> space2 a b = false /\ space2 b a = false.
Proof.
  intro H. unfold space2. anchor_bytes a H.
  split; [reflexivity | apply andb_false_r].
Qed.

Lemma space3_anchor (a b c : ascii) :
  anchor a ->
  space3 a b c = false /\ space3 b a c = false /\ space3 b c a = false.
Proof.
  intro H. unfold space3. anchor_bytes a H.
  assert (Hleb : Nat.leb 128 (nat_of_ascii a) = false)
    by (apply Nat.leb_gt; exact (proj2 H)).
  rewrite Hleb.
  repeat split; cbn [andb orb];
    rewrite ?andb_false_r; reflexivity.
Qed.

Lemma trimLeft_head_anchor (a : ascii) (l : list ascii) :
  anchor a -> trimLeft (a :: l) = a :: l.
Proof.
  intro H. cbn [trimLeft]. rewrite (proj1 H).
  destruct l as [| b l]; [reflexivity |].
  rewrite (proj1 (space2_anchor a b H)).
  destruct l as [| c l]; [reflexivity |].
  now rewrite (proj1 (space3_anchor a b c H)).
Qed.

Lemma trimLeft_anchor_bounded (a : ascii) (r : list ascii) (n : nat) :
  anchor a ->
  forall p : list ascii,
    (length p <= n)%nat ->
    exists p', trimLeft (p ++ a :: r) = (p' ++ a :: r)%list.
Proof.
  intro H. induction n as [| n IH]; intros p Hlen.
  - destruct p; [| cbn in Hlen; lia].
    exists []. now apply trimLeft_head_anchor.
  - destruct p as [| x p1]; [exists []; now apply trimLeft_head_anchor |].
    cbn in Hlen. cbn [app trimLeft].
    destruct (asciiSpace x); [apply IH; lia |].
    destruct p1 as [| y p2]; cbn [app].
    + rewrite (proj2 (space2_anchor a x H)).
      destruct r as [| c r]; [now exists [x] |].
      rewrite (proj1 (proj2 (space3_anchor a x c H))). now exists [x].
    + cbn in Hlen. destruct (space2 x y); [apply IH; lia |].
      destruct p2 as [| z p3]; cbn [app].
      * rewrite (proj2 (proj2 (space3_anchor a x y H))). now exists [x; y].
      * cbn in Hlen. destruct (space3 x y z); [apply IH; lia |].
        now exists (x :: y :: z :: p3).
Qed.

Lemma trimLeftRev_anchor_bounded (a : ascii) (p : list ascii) (n : nat) :
  anchor a ->
  forall r : list ascii,
    (length r <= n)%nat ->
    exists r', trimLeftRev (r ++ a :: p) = (r' ++ a :: p)%list.
Proof.
  intro H.
  assert (Hhead : forall l, trimLeftRev (a :: l) = a :: l).
  { intro l. cbn [trimLeftRev]. rewrite (proj1 H).
    destruct l as [| b l]; [reflexivity |].
    rewrite (proj2 (space2_anchor a b H)).
    destruct l as [| c l]; [reflexivity |].
    now rewrite (proj2 (proj2 (space3_anchor a c b H))). }
  induction n as [| n IH]; intros r Hlen.
  - destruct r; [| cbn in Hlen; lia]. exists []. apply Hhead.
  - destruct r as [| x r1]; [exists []; apply Hhead |].
    cbn in Hlen. cbn [app trimLeftRev].
    destruct (asciiSpace x); [apply IH; lia |].
    destruct r1 as [| y r2]; cbn [app].
    + rewrite (proj1 (space2_anchor a x H)).
      destruct p as [| c p]; [now exists [x] |].
      rewrite (proj1 (proj2 (space3_anchor a c x H))). now exists [x].
    + cbn in Hlen. destruct (space2 y x); [apply IH; lia |].
      destruct r2 as [| z r3]; cbn [app].
      * rewrite (proj1 (space3_anchor a y x H)). now exists [x; y].
      * cbn in Hlen. destruct (space3 z y x); [apply IH; lia |].
        now exists (x :: y :: z :: r3).
Qed.

Lemma trimRight_anchor (a : ascii) (p r : list ascii) :
  anchor a -> exists r', trimRight (p ++ a :: r) = (p ++ a :: r')%list.
Proof.
  intro H. unfold trimRight.
  rewrite rev_app_distr. cbn [rev]. rewrite <- app_assoc. cbn [app].
  destruct (trimLeftRev_anchor_bounded a (rev p) _ H (rev r) (Nat.le_refl _))
    as [r' Hr'].
  rewrite Hr', rev_app_distr. cbn [rev]. rewrite rev_involutive.
  rewrite <- app_assoc. cbn [app]. now exists (rev r').
Qed.

Lemma hasSuffix1_app (c : ascii) (l l' : list ascii) :
  l' <> [] -> hasSuffix1 c (l ++ l') = hasSuffix1 c l'.
Proof.
  intro Hl'. induction l as [| x l IH]; [reflexivity |].
  cbn [app hasSuffix1]. rewrite <- IH.
  destruct (l ++ l')%list eqn:E; [| reflexivity].
  apply app_eq_nil in E. now destruct E.
Qed.

Lemma trimComma_anchor (a : ascii) (p r : list ascii) :
  a <> ","%char ->
  exists r',
    list_ascii_of_string
      (TrimSuffixComma (string_of_list_ascii (p ++ a :: r)))
    = (p ++ a :: r')%list.
Proof.
  intro Ha. unfold TrimSuffixComma.
  rewrite list_ascii_of_string_of_list_ascii.
  destruct (hasSuffix1 "," (p ++ a :: r)) eqn:Hs;
    rewrite list_ascii_of_string_of_list_ascii; [| now exists r].
  destruct r as [| b r].
  - rewrite hasSuffix1_app in Hs by discriminate. cbn in Hs.
    apply Ascii.eqb_eq in Hs. contradiction.
  - rewrite removelast_app by discriminate.
    cbn [removelast]. now eexists.
Qed.

(** The two trimmings of [Error] keep everything up to an anchor that is
    no comma, when the buffer starts with an anchor. *)
Lemma trimmed_keeps_prefix (s : string) (h a : ascii) (p r : list ascii) :
  anchor h -> anchor a -> a <> ","%char ->
  list_ascii_of_string s = (h :: p ++ a :: r)%list ->
  exists r',
    list_ascii_of_string (TrimSuffixComma (TrimSpace s))
    = (h :: p ++ a :: r')%list.
Proof.
  intros Hh Ha Hc Hs. unfold TrimSpace. rewrite Hs.
  rewrite (trimLeft_head_anchor h _ Hh).
  destruct (trimRight_anchor a (h :: p) r Ha) as [r1 Hr1].
  cbn [app] in Hr1. rewrite Hr1.
  exact (trimComma_anchor a (h :: p) r1 Hc).
Qed.

(** They keep something when the buffer holds such an anchor anywhere. *)
Lemma trimmed_keeps_anchor (s : string) (a : ascii) (p r : list ascii) :
  anchor a -> a <> ","%char ->
  list_ascii_of_string s = (p ++ a :: r)%list ->
  TrimSuffixComma (TrimSpace s) <> "".
Proof.
  intros Ha Hc Hs. unfold TrimSpace. rewrite Hs.
  destruct (trimLeft_anchor_bounded a r _ Ha p (Nat.le_refl _)) as [p1 Hp1].
  rewrite Hp1.
  destruct (trimRight_anchor a p1 r Ha) as [r1 Hr1]. rewrite Hr1.
  destruct (trimComma_anchor a p1 r1 Hc) as [r2 Hr2].
  intro E. rewrite E in Hr2. cbn in Hr2.
  destruct p1; discriminate Hr2.
Qed.

Lemma string_of_list_ascii_app (l1 l2 : list ascii) :
  string_of_list_ascii (l1 ++ l2)
  = string_of_list_ascii l1 ++ string_of_list_ascii l2.
Proof. induction l1 as [| a l1 IH]; cbn; [reflexivity | now rewrite IH]. Qed.

Lemma anchor_lt : anchor "<"%char.
Proof. split; [reflexivity | cbn; lia]. Qed.

Lemma anchor_gt : anchor ">"%char.
Proof. split; [reflexivity | cbn; lia]. Qed.

Lemma anchor_colon : anchor ":"%char.
Proof. split; [reflexivity | cbn; lia]. Qed.

(** X7. The rendering of an error with a non-empty code starts with the
    code between angle brackets, whatever the code and the other fields
    hold: the trimming never reaches into it. *)
Theorem X7_Error_starts_with_code :
  forall e : Error,
    Error.Code e <> "" ->
    exists rest : string, Error.Error e = "<" ++ Error.Code e ++ ">" ++ rest.
Proof.
  intros e Hc. rewrite Error_unfold. unfold rendering, code_part.
  destruct (String.eqb_spec (Error.Code e) ""); [contradiction |].
  match goal with
  | |- context [TrimSpace ?s] =>
      destruct (trimmed_keeps_prefix
                  s "<" ">" (list_ascii_of_string (Error.Code e))
                  (list_ascii_of_string
                     (" " ++ origin_part e ++ operation_part e
                      ++ cause_part e ++ Error.Message e))
                  anchor_lt anchor_gt) as [r' Hr'];
        [discriminate | |]
  end.
  - rewrite !append_assoc. cbn [String.append list_ascii_of_string].
    rewrite list_ascii_of_string_app. reflexivity.
  - exists (string_of_list_ascii r').
    rewrite <- (string_of_list_ascii_of_string (TrimSuffixComma _)), Hr'.
    cbn [string_of_list_ascii String.append]. f_equal.
    rewrite string_of_list_ascii_app, string_of_list_ascii_of_string.
    reflexivity.
Qed.

Lemma X7_Error_starts_with_code_witness :
  exists rest : string,
    Error.Error (mkError "not_found" "user missing" "UserService.Get" Nil
                         None false "" None)
    = "<" ++ "not_found" ++ ">" ++ rest.
Proof.
  apply (X7_Error_starts_with_code
           (mkError "not_found" "user missing" "UserService.Get" Nil None
                    false "" None)).
  discriminate.
Defined.

(** X8. The rendering of a constructed error is never empty, not even when
    its code, message, operation and cause are: the origin that [newError]
    records holds a colon, and the colon survives the trimming. *)
Theorem X8_constructed_Error_nonempty :
  forall (rt : Runtime) (err : error) (message code op : string),
    exists e : Error,
      newError rt err message code op = Some e /\ Error.Error e <> "".
Proof.
  intros rt err message code op.
  assert (Hgen : forall (a : StackTrace) (i : bool) (file tail : string)
                        (p : option (list uintptr)),
             Error.Error (mkError code message op err a i
                                  (file ++ ":" ++ tail) p) <> "").
  { intros a i file tail p. rewrite Error_unfold. unfold rendering.
    apply (trimmed_keeps_anchor
             _ ":"
             (list_ascii_of_string
                (code_part (mkError code message op err a i
                                    (file ++ ":" ++ tail) p))
              ++ list_ascii_of_string file)
             (list_ascii_of_string
                (tail ++ " - "
                 ++ operation_part (mkError code message op err a i
                                            (file ++ ":" ++ tail) p)
                 ++ cause_part (mkError code message op err a i
                                        (file ++ ":" ++ tail) p)
                 ++ message))
             anchor_colon); [discriminate |].
    unfold origin_part. cbn [Error.fileLine Error.Message].
    destruct (String.eqb_spec (file ++ ":" ++ tail) "") as [E | _].
    - destruct file; discriminate E.
    - rewrite !list_ascii_of_string_app. cbn [list_ascii_of_string app].
      rewrite <- ?app_assoc. cbn [app].
      rewrite ?list_ascii_of_string_app. reflexivity. }
  unfold newError.
  destruct (Caller rt 2) as [[[pc file] line] ok].
  destruct (String.eqb code INTERNAL);
    eexists; (split; [reflexivity |]); apply Hgen.
Qed.

(** ** More on the adapters *)

(** X9. A decoding that fails changes nothing: when [UnmarshalJSON] or
    [Scan] returns an error, the receiver is as it was before the call. *)
Theorem X9_failure_keeps_receiver :
  forall e : Error,
    (forall data : bytes,
        snd (Error.UnmarshalJSON data e) <> Nil ->
        fst (Error.UnmarshalJSON data e) = e)
    /\ (forall value : any,
          snd (Error.Scan value e) <> Nil ->
          fst (Error.Scan value e) = e).
Proof.
  intro e.
  assert (HU : forall data : bytes,
             snd (Error.UnmarshalJSON data e) <> Nil ->
             fst (Error.UnmarshalJSON data e) = e).
  { intros data. unfold Error.UnmarshalJSON, json_Unmarshal.
    destruct data as [| doc | raw]; try reflexivity.
    destruct (wrappingError.decode doc wrappingError.zero);
      [cbn; congruence | reflexivity]. }
  split; [exact HU |].
  intros value. destruct value as [| b | s | z | bits | b | t];
    try reflexivity.
  destruct b as [| doc | raw]; try reflexivity.
  exact (HU (BytesText doc)).
Qed.

Lemma X9_failure_keeps_receiver_witness :
  fst (Error.UnmarshalJSON
         (BytesText (JObj [("code", JStr "expired"); ("internal", JStr "yes")]))
         (mkError "invalid" "bad id" "User.Get" (foreign "parse error") None
                  false "user.go:7" None))
  = mkError "invalid" "bad id" "User.Get" (foreign "parse error") None false
            "user.go:7" None.
Proof.
  apply (proj1 (X9_failure_keeps_receiver _)). discriminate.
Defined.

(** X10. Through the round trip the origin survives only when the error
    has a cause (it is written to the wire beside the cause), and the
    program counters never do. *)
Theorem X10_roundtrip_origin :
  forall e : Error,
    Error.fileLine (fst (roundtrip e))
    = match Error.Err e with
      | Nil => ""
      | _ => Error.fileLine e
      end
    /\ Error.pcs (fst (roundtrip e)) = None.
Proof.
  intro e. rewrite roundtrip_wire. cbn [fst Error.fileLine Error.pcs].
  split; [| reflexivity].
  unfold wire. destruct (Error.Err e); reflexivity.
Qed.



(** X12. One round trip loses all it will ever lose: unless the error has
    a cause with an empty text, a second round trip gives back the result
    of the first. *)
Theorem X12_roundtrip_idempotent :
  forall e : Error,
    Error.dyn_Error (Error.Err e) <> Some "" ->
    roundtrip (fst (roundtrip e)) = roundtrip e.
Proof.
  intros e Hne. rewrite (roundtrip_wire e). cbn [fst].
  rewrite roundtrip_wire. unfold wire.
  destruct (Error.dyn_Error (Error.Err e)) as [text |] eqn:Hcause;
    cbn [wrappingError.Code wrappingError.Message wrappingError.Operation
         wrappingError.Err wrappingError.FileLine wrappingError.Additional
         wrappingError.Internal Error.Err Error.Code Error.Message
         Error.Operation Error.Additional Error.Internal Error.fileLine];
    [| reflexivity].
  destruct (String.eqb_spec text ""); [subst; contradiction |].
  cbn [negb errors_New Error.dyn_Error].
  cbn [wrappingError.Code wrappingError.Message wrappingError.Operation
       wrappingError.Err wrappingError.FileLine wrappingError.Additional
       wrappingError.Internal].
  destruct (String.eqb_spec text ""); [contradiction | reflexivity].
Qed.

Lemma X12_roundtrip_idempotent_witness :
  roundtrip (fst (roundtrip (mkError "conflict" "taken" "User.Put"
                                     (foreign "duplicate key") None false
                                     "user.go:12" (Some [4096; 8192]))))
  = roundtrip (mkError "conflict" "taken" "User.Put"
                       (foreign "duplicate key") None false "user.go:12"
                       (Some [4096; 8192])).
Proof.
  apply (X12_roundtrip_idempotent _). discriminate.
Defined.

(** ** Traces and frames as text *)

Lemma writeTraces_app (l : list Trace) :
  forall buf : Buffer,
    writeTraces buf l
    = buf ++ fold_right String.append ""
                        (map (fun s => s ++ nl) (map Trace_String l)).
Proof.
  induction l as [| t l IH]; intro buf; cbn [writeTraces map fold_right].
  - now rewrite append_nil_r.
  - rewrite IH. unfold WriteString. now rewrite !append_assoc.
Qed.

Lemma appendTraces_app (l : list Trace) :
  forall s : option (list string),
    appendTraces s l
    = match l with
      | [] => s
      | _ :: _ => Some (elements s ++ map Trace_String l)%list
      end.
Proof.
  induction l as [| t l IH]; intro s; [reflexivity |].
  cbn [appendTraces]. rewrite IH. unfold append1. cbn [elements map].
  destruct l as [| t' l]; [reflexivity |].
  now rewrite <- app_assoc.
Qed.

(** X13. [StackTrace.StringArray] returns one string per trace, in order,
    and the nil slice when there is no trace; [StackTrace.String] is those
    strings, each followed by a newline, and is empty exactly when there is
    no trace. *)
Theorem X13_StackTrace_text :
  forall t : StackTrace,
    StackTrace_StringArray t
    = match elements t with
      | [] => None
      | l => Some (map Trace_String l)
      end
    /\ StackTrace_String t
       = fold_right String.append ""
                    (map (fun s => s ++ nl)
                         (elements (StackTrace_StringArray t)))
    /\ (StackTrace_String t = "" <-> elements t = []).
Proof.
  intro t. unfold StackTrace_StringArray, StackTrace_String, Buffer_String.
  rewrite appendTraces_app, writeTraces_app. unfold newBuffer.
  cbn [String.append elements].
  destruct (elements t) as [| tr l]; cbn [elements app].
  - repeat split; reflexivity.
  - repeat split; try discriminate.
Qed.

(** The rounds of the loop over the frames, from the state that [Next]
    leaves after returning [frame] with [rest] still to come. *)
Lemma framesLoop_closed (prefix line : string) (rest : Frames) :
  forall (fuel : nat) (trace : list string) (frame : Frame.t),
    (length rest < fuel)%nat ->
    framesLoop fuel prefix line trace frame
               (match rest with [] => false | _ :: _ => true end) rest
    = (trace
       ++ map (fun f => (prefix ++ Frame.File f ++ ":" ++ line)%string)
              (removelast (frame :: rest)))%list.
Proof.
  induction rest as [| f2 rest IH]; intros fuel trace frame Hfuel.
  - destruct fuel; [cbn in Hfuel; lia |]. cbn. now rewrite app_nil_r.
  - destruct fuel as [| fuel]; [cbn in Hfuel; lia |].
    cbn [framesLoop Next]. rewrite IH by (cbn in Hfuel; lia).
    rewrite <- app_assoc. reflexivity.
Qed.

Lemma StackTraceSlice_fuel_closed
  (CallersFrames : option (list uintptr) -> Frames) (e : Error) (fuel : nat) :
  (length (CallersFrames (Error.pcs e)) < fuel)%nat ->
  Error.StackTraceSlice_fuel fuel CallersFrames e
  = (Frame.Function (hd Frame.zero (CallersFrames (Error.pcs e)))
     ++ "(): " ++ Error.Message e)
      :: map (fun f =>
                Frame.File f ++ ":"
                ++ Itoa (Frame.Line
                           (hd Frame.zero (CallersFrames (Error.pcs e)))))
             (removelast (CallersFrames (Error.pcs e))).
Proof.
  intro Hfuel. unfold Error.StackTraceSlice_fuel, Error.RuntimeFrames.
  destruct (CallersFrames (Error.pcs e)) as [| f rest].
  - destruct fuel; reflexivity.
  - cbn [Next hd]. rewrite framesLoop_closed by (cbn in Hfuel; lia).
    reflexivity.
Qed.

(** X14. [StackTraceSlice] returns a head line, the function of the first
    frame followed by "(): " and the message, and then one entry
    "file:line" for every frame but the last one; the line is that of the
    first frame in every entry.  With no frame at all the head line alone
    is returned.  The loop ends by itself: any bound above the number of
    frames gives this result. *)
Theorem X14_StackTraceSlice :
  forall (CallersFrames : option (list uintptr) -> Frames) (e : Error),
    let frames := CallersFrames (Error.pcs e) in
    let first := hd Frame.zero frames in
    let result :=
      (Frame.Function first ++ "(): " ++ Error.Message e)
        :: map (fun f => Frame.File f ++ ":" ++ Itoa (Frame.Line first))
               (removelast frames) in
    Error.StackTraceSlice CallersFrames e = result
    /\ forall fuel : nat,
         (length frames < fuel)%nat ->
         Error.StackTraceSlice_fuel fuel CallersFrames e = result.
Proof.
  intros CallersFrames e frames first result. split.
  - unfold Error.StackTraceSlice. apply StackTraceSlice_fuel_closed.
    unfold Error.RuntimeFrames. lia.
  - intros fuel Hfuel. now apply StackTraceSlice_fuel_closed.
Qed.

Lemma X14_StackTraceSlice_witness :
  Error.StackTraceSlice_fuel
    5 (fun _ => [Frame.mk 4096 "errors.NewE" "errors.go" 100;
                 Frame.mk 8192 "main.get" "user.go" 42;
                 Frame.mk 12288 "main.main" "main.go" 7])
    (mkError "invalid" "bad id" "User.Get" Nil None false "user.go:42"
             (Some [4096; 8192]))
  = ["errors.NewE(): bad id"; "errors.go:100"; "user.go:100"].
Proof.
  apply (proj2 (X14_StackTraceSlice
                  (fun _ => [Frame.mk 4096 "errors.NewE" "errors.go" 100;
                             Frame.mk 8192 "main.get" "user.go" 42;
                             Frame.mk 12288 "main.main" "main.go" 7])
                  (mkError "invalid" "bad id" "User.Get" Nil None false
                           "user.go:42" (Some [4096; 8192])))).
  cbn. lia.
Defined.

(** X15. [StackTrace] is the lines of [StackTraceSlice] joined by newlines,
    with a tab before every line but the first. *)
Theorem X15_StackTrace_joins_slice :
  forall (CallersFrames : option (list uintptr) -> Frames) (e : Error),
    Error.StackTrace CallersFrames e
    = Join (match Error.StackTraceSlice CallersFrames e with
            | [] => []
            | head :: entries => head :: map (String.append tab) entries
            end) nl.
Proof.
  intros CallersFrames e.
  unfold Error.StackTraceSlice.
  rewrite StackTraceSlice_fuel_closed by (unfold Error.RuntimeFrames; lia).
  unfold Error.StackTrace, Error.StackTrace_fuel, Error.RuntimeFrames.
  destruct (CallersFrames (Error.pcs e)) as [| f rest]; [reflexivity |].
  cbn [Next hd length]. rewrite framesLoop_closed by lia.
  cbn [app]. rewrite map_map. reflexivity.
Qed.

(** ** [ToError] and the verbose rendering *)

(** X16. [ToError] hands an [Error] back as it is, whether given by pointer
    or by value; it is nil for nil and for a value of a type it does not
    know; from another error or from a string it makes an [Error] with no
    code and no message of its own, so that [Code] of the result is
    INTERNAL, [Message] is the fallback [GlobalError] (not the text given)
    and the HTTP status is 500. *)
Theorem X16_ToError :
  forall (Sprintf : string -> list any -> string) (g : Globals),
    (forall e, ToError Sprintf (in_ptr e) = Some e
               /\ ToError Sprintf (in_value e) = Some e)
    /\ ToError Sprintf in_nil = None
    /\ ToError Sprintf in_other = None
    /\ (forall x text,
          x = in_error text \/ x = in_string text ->
          exists e,
            ToError Sprintf x = Some e
            /\ Error.Err e = foreign (Sprintf text [])
            /\ Code (ptr e) = "internal"
            /\ Message g (ptr e) = GlobalError g
            /\ Error.HTTPStatusCode e = 500).
Proof.
  intros Sprintf g. repeat split.
  intros x text [-> | ->]; eexists; repeat split.
Qed.

Lemma X16_ToError_witness :
  exists e,
    ToError (fun format _ => format) (in_string "no such user") = Some e
    /\ Error.Err e = foreign "no such user"
    /\ Code (ptr e) = "internal"
    /\ Message initGlobals (ptr e) = "An error has occurred."
    /\ Error.HTTPStatusCode e = 500.
Proof.
  apply (proj2 (proj2 (proj2 (X16_ToError (fun format _ => format)
                                          initGlobals)))).
  right. reflexivity.
Defined.

Lemma ErrorWithStackTrace_unfold (e : Error) :
  Error.ErrorWithStackTrace e
  = block e
    ++ match Error.Err e with
       | ptr er => nl ++ Error.ErrorWithStackTrace er ++ nl
       | foreign text => nl ++ text
       | Nil => ""
       end.
Proof.
  destruct e as [c m o cause a i f p]. unfold block.
  cbn [Error.ErrorWithStackTrace Error.Code Error.Message Error.Operation
       Error.Err Error.Additional].
  unfold newBuffer, WriteString, Buffer_String.
  destruct cause as [| text | er];
    rewrite ?append_assoc, ?append_nil_r; cbn [String.append];
    rewrite ?append_assoc; reflexivity.
Qed.

(** X17. The verbose rendering shows every level of the chain: for each
    [Error] met when following the causes, its block (code, message,
    operation, frames) occurs in [ErrorWithStackTrace] of the outermost
    error.  In particular the rendering is never empty. *)
Theorem X17_ErrorWithStackTrace_blocks :
  forall e : Error,
    (forall e', In e' (chain (ptr e)) ->
                occurs (block e') (Error.ErrorWithStackTrace e))
    /\ Error.ErrorWithStackTrace e <> "".
Proof.
  intro e. split.
  - induction e as [| text | e0 IH | c m o cause IH a i f p]
      using Error_mut
      with (P := fun err =>
                   forall e0 e', err = ptr e0 -> In e' (chain (ptr e0)) ->
                                 occurs (block e')
                                        (Error.ErrorWithStackTrace e0)).
    + intros e0 e' H. discriminate H.
    + intros e0 e' H. discriminate H.
    + intros e1 e' H. injection H as <-. apply IH.
    + intros e' Hin. cbn [chain Error.Err] in Hin.
      rewrite ErrorWithStackTrace_unfold. cbn [Error.Err].
      destruct Hin as [<- | Hin].
      * exists "". eexists. cbn [String.append]. reflexivity.
      * destruct cause as [| text | er]; try contradiction.
        destruct (IH er e' eq_refl Hin) as (pre & post & Heq).
        rewrite Heq.
        exists (block (mkError c m o (ptr er) a i f p) ++ nl ++ pre),
               (post ++ nl).
        now rewrite !append_assoc.
  - rewrite ErrorWithStackTrace_unfold. unfold block. discriminate.
Qed.

Lemma X17_ErrorWithStackTrace_blocks_witness :
  occurs (block (mkError "invalid" "bad" "" Nil None false "" None))
         (Error.ErrorWithStackTrace
            (mkError "conflict" "taken" "User.Put"
                     (ptr (mkError "invalid" "bad" "" Nil None false ""
                                   None))
                     None false "" None)).
Proof.
  apply (proj1 (X17_ErrorWithStackTrace_blocks _)).
  cbn. right. left. reflexivity.
Defined.

(** ** What the trimming of [Error] is for *)

Lemma trimLeftRev_head_anchor (a : ascii) (l : list ascii) :
  anchor a -> trimLeftRev (a :: l) = a :: l.
Proof.
  intro H. cbn [trimLeftRev]. rewrite (proj1 H).
  destruct l as [| b l]; [reflexivity |].
  rewrite (proj2 (space2_anchor a b H)).
  destruct l as [| c l]; [reflexivity |].
  now rewrite (proj2 (proj2 (space3_anchor a c b H))).
Qed.

Lemma trimRight_last_anchor (a : ascii) (l : list ascii) :
  anchor a -> trimRight (l ++ [a]) = (l ++ [a])%list.
Proof.
  intro H. unfold trimRight. rewrite rev_app_distr. cbn [rev app].
  rewrite (trimLeftRev_head_anchor a _ H). cbn [rev].
  now rewrite rev_involutive.
Qed.

Lemma anchor_comma : anchor ","%char.
Proof. split; [reflexivity | cbn; lia]. Qed.

Lemma trimRight_separator (l : list ascii) :
  trimRight (l ++ [","%char; " "%char]) = (l ++ [","%char])%list.
Proof.
  unfold trimRight. rewrite rev_app_distr. cbn [rev app].
  change (trimLeftRev (" "%char :: ","%char :: rev l))
    with (trimLeftRev (","%char :: rev l)).
  rewrite (trimLeftRev_head_anchor _ _ anchor_comma). cbn [rev].
  now rewrite rev_involutive.
Qed.

Lemma hasSuffix1_last (c a : ascii) (l : list ascii) :
  hasSuffix1 c (l ++ [a]) = Ascii.eqb a c.
Proof. rewrite hasSuffix1_app by discriminate. reflexivity. Qed.

(** X18. For an error with a non-empty code: when it has a cause and no
    message, the rendering is the parts up to the text of the cause, the
    separator ", " that follows the cause being trimmed away and nothing
    else; when its message ends with an ASCII byte that is neither white
    space nor a comma, the rendering is the parts put end to end, with
    nothing trimmed. *)
Theorem X18_Error_trimming :
  forall e : Error,
    Error.Code e <> "" ->
    (forall text,
        Error.dyn_Error (Error.Err e) = Some text ->
        Error.Message e = "" ->
        Error.Error e
        = "<" ++ Error.Code e ++ "> " ++ origin_part e ++ operation_part e
          ++ text)
    /\ (forall (m : string) (a : ascii),
          Error.Message e = m ++ String a "" ->
          anchor a -> a <> ","%char ->
          Error.Error e
          = "<" ++ Error.Code e ++ "> " ++ origin_part e
            ++ operation_part e ++ cause_part e ++ Error.Message e).
Proof.
  intros e Hc. rewrite Error_unfold. unfold rendering, code_part.
  destruct (String.eqb_spec (Error.Code e) ""); [contradiction |].
  split.
  - intros text Hcause Hm. unfold cause_part. rewrite Hcause, Hm.
    rewrite !append_assoc, append_nil_r.
    set (body := Error.Code e ++ "> " ++ origin_part e ++ operation_part e
                 ++ text).
    replace (Error.Code e ++ "> " ++ origin_part e ++ operation_part e
             ++ text ++ ", ")
      with (body ++ ", ")
      by (unfold body; now rewrite !append_assoc).
    cbn [String.append].
    rewrite <- (string_of_list_ascii_of_string (String "<" body)).
    unfold TrimSuffixComma, TrimSpace.
    cbn [list_ascii_of_string].
    rewrite (trimLeft_head_anchor _ _ anchor_lt).
    rewrite list_ascii_of_string_app. cbn [list_ascii_of_string].
    rewrite app_comm_cons, trimRight_separator.
    rewrite list_ascii_of_string_of_list_ascii, hasSuffix1_last.
    cbn [Ascii.eqb Bool.eqb]. rewrite removelast_last. reflexivity.
  - intros m a Hm Ha Hcomma.
    rewrite !append_assoc. rewrite Hm.
    set (body := Error.Code e ++ "> " ++ origin_part e ++ operation_part e
                 ++ cause_part e ++ m).
    replace (Error.Code e ++ "> " ++ origin_part e ++ operation_part e
             ++ cause_part e ++ m ++ String a "")
      with (body ++ String a "")
      by (unfold body; now rewrite !append_assoc).
    cbn [String.append].
    unfold TrimSuffixComma, TrimSpace.
    cbn [list_ascii_of_string].
    rewrite (trimLeft_head_anchor _ _ anchor_lt).
    rewrite list_ascii_of_string_app. cbn [list_ascii_of_string].
    rewrite app_comm_cons, (trimRight_last_anchor _ _ Ha).
    rewrite list_ascii_of_string_of_list_ascii, hasSuffix1_last.
    destruct (Ascii.eqb_spec a ","); [contradiction |].
    rewrite <- app_comm_cons. cbn [string_of_list_ascii].
    rewrite string_of_list_ascii_app, string_of_list_ascii_of_string.
    reflexivity.
Qed.

Lemma X18_Error_trimming_witness :
  Error.Error (mkError "conflict" "" "User.Put" (foreign "duplicate key")
                       None false "" None)
  = "<" ++ "conflict" ++ "> " ++ "" ++ "User.Put: " ++ "duplicate key".
Proof.
  apply (proj1 (X18_Error_trimming
                  (mkError "conflict" "" "User.Put" (foreign "duplicate key")
                           None false "" None)
                  ltac:(discriminate)));
    reflexivity.
Defined.
